(** * log4j-sniffer: archive format detection and the docker image scanner

    A shallow embedding of
      - [pkg/archive/formats.go]: the extension table, the three tar reader
        providers and [ParseArchiveFormatFromFile];
      - the docker scanner ([Scanner.ScanImages], [Scanner.scanImage]);
    together with the properties the specification states about them. *)

From Stdlib Require Import ZArith Ascii.
From stdpp Require Import gmap strings list fin_maps pretty.

(** ** Go strings: [strings.Split] and [strings.Join] with separator "." *)

Module GoStrings.

(** The separator byte of the detector. *)
Definition dot : ascii := "."%char.

Definition is_dot (c : ascii) : bool := bool_decide (c = dot).

(** [strings.Split(s, ".")]: the substrings between the separators, in
    order.  A string without a separator is returned as the only element,
    the empty string included. *)
Fixpoint Split (s : string) : list string :=
  match s with
  | EmptyString => [""]
  | String c rest =>
      if is_dot c then "" :: Split rest
      else match Split rest with
           | seg :: segs => String c seg :: segs
           | [] => [String c ""]
           end
  end.

(** [strings.Join(elems, ".")]. *)
Fixpoint Join (elems : list string) : string :=
  match elems with
  | [] => ""
  | [e] => e
  | e :: rest => e +:+ String dot (Join rest)
  end.

(** A string in which no separator occurs. *)
Fixpoint dotfree (s : string) : bool :=
  match s with
  | EmptyString => true
  | String c rest => negb (is_dot c) && dotfree rest
  end.

End GoStrings.

Import GoStrings.

(** ** pkg/archive/formats.go *)

(** [FormatType], with the constants in [iota] order. *)
Inductive FormatType : Type :=
| UnsupportedArchive
| TarArchive
| TarGzArchive
| TarBz2Archive
| ZipArchive.

#[global] Instance FormatType_eq_dec : EqDecision FormatType.
Proof. solve_decision. Defined.

(** The numeric value of a [FormatType] constant. *)
Definition FormatType_value (f : FormatType) : Z :=
  match f with
  | UnsupportedArchive => 0
  | TarArchive => 1
  | TarGzArchive => 2
  | TarBz2Archive => 3
  | ZipArchive => 4
  end.

(** The package-level map [extensions]. *)
Definition extensions : gmap string FormatType :=
  <["ear" := ZipArchive]>
  (<["jar" := ZipArchive]>
  (<["par" := ZipArchive]>
  (<["war" := ZipArchive]>
  (<["zip" := ZipArchive]>
  (<["tar" := TarArchive]>
  (<["tar.gz" := TarGzArchive]>
  (<["tgz" := TarGzArchive]>
  (<["tar.bz2" := TarBz2Archive]>
  (<["tbz2" := TarBz2Archive]> ∅))))))))).

(** The body of the [for] loop of [ParseArchiveFormatFromFile], run over the
    successive values of [i]: the first index whose suffix
    [strings.Join(fileSplit[i:], ".")] is a key of [extensions] decides. *)
Fixpoint search_suffixes (fileSplit : list string) (indices : list nat)
  : FormatType * bool :=
  match indices with
  | [] => (UnsupportedArchive, false)
  | i :: later =>
      match extensions !! Join (drop i fileSplit) with
      | Some archive => (archive, true)
      | None => search_suffixes fileSplit later
      end
  end.

(** [ParseArchiveFormatFromFile].  Past the length guard the loop
    [for i := len-1; i >= len-2; i--] visits [len-1] and then [len-2]. *)
Definition ParseArchiveFormatFromFile (filename : string) : FormatType * bool :=
  let fileSplit := Split filename in
  if bool_decide (length fileSplit < 2)%nat then (UnsupportedArchive, false)
  else
    search_suffixes fileSplit [length fileSplit - 1; length fileSplit - 2]%nat.

(** The detector as the specification words it: the two-segment suffix is
    looked up first, the one-segment suffix second. *)
Definition detect_two_then_one (filename : string) : FormatType * bool :=
  let segments := Split filename in
  if bool_decide (length segments < 2)%nat then (UnsupportedArchive, false)
  else
    match extensions !! Join (drop (length segments - 2) segments) with
    | Some format => (format, true)
    | None =>
        match extensions !! Join (drop (length segments - 1) segments) with
        | Some format => (format, true)
        | None => (UnsupportedArchive, false)
        end
    end.

(** The trailing dot-suffix of [k] segments of a filename: its last [k]
    segments, counted from the end, joined by the separator again. *)
Definition last_segments (k : nat) (filename : string) : list string :=
  reverse (take k (reverse (Split filename))).

Definition dot_suffix (k : nat) (filename : string) : string :=
  Join (last_segments k filename).

(** A filename that ends in the extension [ext]. *)
Definition with_extension (base ext : string) : string :=
  base +:+ String dot ext.

(** ** The tar reader providers of pkg/archive/formats.go

    [compress/gzip], [compress/bzip2] and [archive/tar] belong to the Go
    standard library; the providers are stated over their constructors. *)

Module Readers.
Section Providers.

(** [io.Reader] values, the object behind a non-nil [*tar.Reader], and
    non-nil [error] values. *)
Context {Reader TarReader GoError : Type}.

(** [gzip.NewReader]: reads the gzip header at once, so it yields a reader
    and a possibly non-nil error. *)
Variable gzip_NewReader : Reader -> Reader * option GoError.
(** [bzip2.NewReader]: no error result. *)
Variable bzip2_NewReader : Reader -> Reader.
(** [tar.NewReader]: no error result, never nil. *)
Variable tar_NewReader : Reader -> TarReader.

(** What a provider returns, a [*tar.Reader] and an [error]: [None] is
    [nil] on either side. *)
Definition provided : Type := (option TarReader * option GoError)%type.

Definition TarGzipReader (iReader : Reader) : provided :=
  let '(gzipReader, err) := gzip_NewReader iReader in
  match err with
  | Some e => (None, Some e)
  | None => (Some (tar_NewReader gzipReader), None)
  end.

Definition TarBzip2Reader (iReader : Reader) : provided :=
  (Some (tar_NewReader (bzip2_NewReader iReader)), None).

Definition TarUncompressedReader (iReader : Reader) : provided :=
  (Some (tar_NewReader iReader), None).

End Providers.
End Readers.

(** ** The docker image scanner *)

Module Docker.

(** A non-nil Go [error], known by the text its [Error()] method returns. *)
Record error : Type := NewError { Error : string }.

(** The line feed that [Fprintln] appends and "\n" denotes. *)
Definition newline : string := String "010"%char "".

(** [errors.Wrap(err, message)] and [errors.Wrapf]: the message, a colon
    and the cause. *)
Definition Wrap (err : error) (message : string) : error :=
  NewError (message +:+ ": " +:+ Error err).

(** The fields of [dockertypes.ImageSummary] the scanner reads. *)
Record ImageSummary : Type := { ID : string; RepoTags : list string }.

(** The packages [crawl] and [scan] of the scanner, as far as [Scanner]
    uses them: [crawl.Stats] with its zero value and [Append],
    [*crawl.Reporter] with its setters and [Count], [scan.Config] with
    [OutputSummary], [scan.WriteSummary] (the text it writes and its
    error), and the values [name.ParseReference] and [daemon.Image]
    produce. *)
Class Packages : Type := {
  Stats : Type;
  Stats_zero : Stats;
  Append : Stats -> Stats -> Stats;
  Reporter : Type;
  SetImageID : string -> Reporter -> Reporter;
  SetImageTags : list string -> Reporter -> Reporter;
  Count : Reporter -> Z;
  Config : Type;
  OutputSummary : Config -> bool;
  WriteSummary : Config -> Stats -> Z -> string * option error;
  Reference : Type;
  Image : Type;
}.

Section Scanner.
Context `{Packages}.

(** What the process can observe and change: the paths that exist, each
    by its absolute name, the working directory, what was written to
    [crawler.ErrorWriter] and to [reporter.OutputWriter], and the reporter
    behind [d.reporter]. *)
Record World : Type := {
  fs : gset string;
  cwd : string;
  stderr : list string;
  stdout : list string;
  reporter : Reporter;
}.

(** One run of [crawler.Crawl] with [reporter.Collect] as its callback:
    the returned pair, the change of the reporter and the writes. *)
Record CrawlRun : Type := {
  run_stats : Stats;
  run_err : option error;
  run_collect : Reporter -> Reporter;
  run_stderr : list string;
  run_stdout : list string;
}.

(** The outcome of every call that leaves the process, by the names the
    call is given.  A call fails with [Some e]; a call that succeeds
    changes the [World] as written in the operations below.
    [archiver_Unarchive] also tells the paths it has made, by their
    absolute names, and [Crawl] is the crawl of the working directory once
    [os.Chdir] has moved to the directory of that name. *)
Record Env : Type := {
  ImageList : list ImageSummary * option error;
  ParseReference : string -> Reference * option error;
  daemon_Image : Reference -> Image * option error;
  MkdirTemp : string -> string * option error;
  os_Create : string -> option error;
  File_Close : string -> option error;
  os_RemoveAll : string -> option error;
  crane_Export : Image -> string -> option error;
  archiver_Unarchive : string -> string -> list string * option error;
  os_Remove : string -> option error;
  os_Chdir : string -> option error;
  Crawl : string -> CrawlRun;
}.

Variable env : Env.
(** [d.config]. *)
Variable config : Config.

Definition with_fs (f : gset string -> gset string) (w : World) : World :=
  {| fs := f (fs w); cwd := cwd w; stderr := stderr w;
     stdout := stdout w; reporter := reporter w |}.

Definition with_reporter (f : Reporter -> Reporter) (w : World) : World :=
  {| fs := fs w; cwd := cwd w; stderr := stderr w;
     stdout := stdout w; reporter := f (reporter w) |}.

(** A write to [d.crawler.ErrorWriter]. *)
Definition eprint (text : string) (w : World) : World :=
  {| fs := fs w; cwd := cwd w; stderr := stderr w ++ [text];
     stdout := stdout w; reporter := reporter w |}.

(** A write to [d.reporter.OutputWriter]. *)
Definition print (text : string) (w : World) : World :=
  {| fs := fs w; cwd := cwd w; stderr := stderr w;
     stdout := stdout w ++ [text]; reporter := reporter w |}.

Definition chdir (dir : string) (w : World) : World :=
  {| fs := fs w; cwd := dir; stderr := stderr w;
     stdout := stdout w; reporter := reporter w |}.

(** [path] lies below the directory [dir]. *)
Definition below (dir path : string) : bool :=
  String.prefix (dir +:+ "/") path.

(** What a successful [os.RemoveAll(dir)] leaves of the paths. *)
Definition remove_all (dir : string) (paths : gset string) : gset string :=
  filter (fun p => below dir p = false) (paths ∖ {[dir]}).

(** [filepath.Join(dir, name)] for a clean [dir] and a plain [name]. *)
Definition filepath_Join (dir name : string) : string :=
  dir +:+ "/" +:+ name.

(** An absolute path starts at the root. *)
Definition is_abs (path : string) : bool :=
  match path with
  | String c _ => bool_decide (c = "/"%char)
  | EmptyString => false
  end.

(** The path a name stands for in a process whose working directory is
    [dir]: the name itself when it is absolute, and else the path of that
    name below [dir]. *)
Definition resolve (dir path : string) : string :=
  if is_abs path then path else filepath_Join dir path.

(** Where [outFile] lies: it is the file [image.tar] of the directory that
    [imageTmpDir] names in the working directory of [w]. *)
Definition image_tar (w : World) (imageTmpDir : string) : string :=
  filepath_Join (resolve (cwd w) imageTmpDir) "image.tar".

(** The text of both [Fprintf] calls of the deferred function. *)
Definition remove_failed (imageTmpDir : string) : string :=
  "failed to remove temporary image directory " +:+ imageTmpDir +:+ newline.

(** The function [scanImage] defers once [outFile] is open.  It names the
    directory as [os.MkdirTemp] did, and [os.RemoveAll] takes the name from
    the working directory of the moment: a relative name is looked up
    below the directory of the image once [os.Chdir] has moved there. *)
Definition deferred (imageTmpDir outFile : string) (w : World) : World :=
  let w :=
    match File_Close env outFile with
    | Some _ => eprint (remove_failed imageTmpDir) w
    | None => w
    end in
  match os_RemoveAll env imageTmpDir with
  | Some _ => eprint (remove_failed imageTmpDir) w
  | None => with_fs (remove_all (resolve (cwd w) imageTmpDir)) w
  end.

(** [scanImage] from [crane.Export] on, the part that runs with the
    deferred function registered. *)
Definition export_and_crawl (img : Image) (imageTmpDir outFile : string)
    (w : World) : (Stats * option error) * World :=
  match crane_Export env img outFile with
  | Some e => ((Stats_zero, Some (Wrap e "could not export image")), w)
  | None =>
  let '(extracted, err) := archiver_Unarchive env outFile imageTmpDir in
  let w := with_fs (fun paths => paths ∪ list_to_set extracted) w in
  match err with
  | Some e => ((Stats_zero, Some (Wrap e "failed to extract image")), w)
  | None =>
  match os_Remove env outFile with
  | Some e => ((Stats_zero, Some e), w)
  | None =>
  let w := with_fs (fun paths => paths ∖ {[image_tar w imageTmpDir]}) w in
  match os_Chdir env imageTmpDir with
  | Some e => ((Stats_zero, Some e), w)
  | None =>
  let w := chdir (resolve (cwd w) imageTmpDir) w in
  let run := Crawl env imageTmpDir in
  ((run_stats run, run_err run),
   {| fs := fs w; cwd := cwd w;
      stderr := stderr w ++ run_stderr run;
      stdout := stdout w ++ run_stdout run;
      reporter := run_collect run (reporter w) |})
  end end end end.

(** [Scanner.scanImage].  [None] is the run-time panic of
    [image.RepoTags[0]] on an image without tags. *)
Definition scanImage (image : ImageSummary) (w : World)
    : option ((Stats * option error) * World) :=
  match RepoTags image with
  | [] => None
  | tag :: _ =>
  let '(ref, err) := ParseReference env tag in
  match err with
  | Some e =>
      Some ((Stats_zero, Some (Wrap e "failed to get image reference")), w)
  | None =>
  let '(img, err) := daemon_Image env ref in
  match err with
  | Some e => Some ((Stats_zero, Some e), w)
  | None =>
  let '(imageTmpDir, err) := MkdirTemp env ("log4j-sniffer-" +:+ ID image) in
  match err with
  | Some e =>
      Some ((Stats_zero,
             Some (Wrap e "could not create temporary directory for image")),
            w)
  | None =>
  let w := with_fs (fun paths => paths ∪ {[resolve (cwd w) imageTmpDir]}) w in
  let outFile := filepath_Join imageTmpDir "image.tar" in
  match os_Create env outFile with
  | Some e => Some ((Stats_zero, Some e), w)
  | None =>
  let w := with_fs (fun paths => paths ∪ {[image_tar w imageTmpDir]}) w in
  let '(ret, w) := export_and_crawl img imageTmpDir outFile w in
  Some (ret, deferred imageTmpDir outFile w)
  end end end end
  end.

(** The [for ... range imageList] loop of [ScanImages], with the local
    [stats] as accumulator. *)
Fixpoint scan_loop (imageList : list ImageSummary) (stats : Stats)
    (w : World) : option (Stats * World) :=
  match imageList with
  | [] => Some (stats, w)
  | image :: rest =>
      match RepoTags image with
      | [] => scan_loop rest stats w
      | _ :: _ =>
          let w := with_reporter (SetImageID (ID image)) w in
          let w := with_reporter (SetImageTags (RepoTags image)) w in
          match scanImage image w with
          | None => None
          | Some ((imageStats, Some err), w) =>
              scan_loop rest stats (eprint (Error err +:+ newline) w)
          | Some ((imageStats, None), w) =>
              scan_loop rest (Append stats imageStats) w
          end
      end
  end.

(** [Scanner.ScanImages]. *)
Definition ScanImages (w : World) : option ((Z * option error) * World) :=
  let '(imageList, err) := ImageList env in
  match err with
  | Some e => Some ((0%Z, Some (Wrap e "could not list docker images")), w)
  | None =>
      match scan_loop imageList Stats_zero w with
      | None => None
      | Some (stats, w) =>
          let count := Count (reporter w) in
          if OutputSummary config then
            let '(text, err) := WriteSummary config stats count in
            match err with
            | Some e => Some ((0%Z, Some e), print text w)
            | None => Some ((count, None), print text w)
            end
          else Some ((count, None), w)
      end
  end.

(** *** What a run is measured against *)

(** The images the loop scans: those with a tag. *)
Definition tagged_images (imageList : list ImageSummary)
    : list ImageSummary :=
  filter (fun image => RepoTags image <> []) imageList.

(** What [scanImage] returns for an image. *)
Definition result_of (w : World) (image : ImageSummary)
    : option (Stats * option error) :=
  fst <$> scanImage image w.

(** The [Stats] of the images whose scan succeeded, in list order. *)
Definition succeeded_stats (w : World) (imageList : list ImageSummary)
    : list Stats :=
  omap (fun image =>
          match result_of w image with
          | Some (imageStats, None) => Some imageStats
          | _ => None
          end) (tagged_images imageList).

(** The lines owed to the images whose scan failed, in list order. *)
Definition failure_lines (w : World) (imageList : list ImageSummary)
    : list string :=
  omap (fun image =>
          match result_of w image with
          | Some (_, Some err) => Some (Error err +:+ newline)
          | _ => None
          end) (tagged_images imageList).

(** The reporter after one image: named, then handed to the scan. *)
Definition reporter_after_image (w : World) (r : Reporter)
    (image : ImageSummary) : Reporter :=
  let named := SetImageTags (RepoTags image) (SetImageID (ID image) r) in
  match scanImage image (with_reporter (fun _ => named) w) with
  | Some (_, w') => reporter w'
  | None => named
  end.


(** What [ScanImages] returns once the loop is over: the count of the
    reporter, or the error of the summary. *)
Definition after_loop (stats : Stats) (count : Z) : Z * option error :=
  if OutputSummary config then
    match snd (WriteSummary config stats count) with
    | Some e => (0%Z, Some e)
    | None => (count, None)
    end
  else (count, None).

(** What the summary adds to the output. *)
Definition summary_output (stats : Stats) (count : Z) : list string :=
  if OutputSummary config then [fst (WriteSummary config stats count)]
  else [].

End Scanner.

(** *** Environments that differ in the cleanup alone *)

Section Cleanup.
Context `{Packages}.

(** The environment [env] with other outcomes for the two calls of the
    deferred function, [outFile.Close] and [os.RemoveAll]. *)
Definition with_cleanup (close remove : string -> option error) (env : Env)
    : Env :=
  {| ImageList := ImageList env;
     ParseReference := ParseReference env;
     daemon_Image := daemon_Image env;
     MkdirTemp := MkdirTemp env;
     os_Create := os_Create env;
     File_Close := close;
     os_RemoveAll := remove;
     crane_Export := crane_Export env;
     archiver_Unarchive := archiver_Unarchive env;
     os_Remove := os_Remove env;
     os_Chdir := os_Chdir env;
     Crawl := Crawl env |}.

(** The environment [env] with another answer to [client.ImageList]. *)
Definition with_images (images : list ImageSummary * option error) (env : Env)
    : Env :=
  {| ImageList := images;
     ParseReference := ParseReference env;
     daemon_Image := daemon_Image env;
     MkdirTemp := MkdirTemp env;
     os_Create := os_Create env;
     File_Close := File_Close env;
     os_RemoveAll := os_RemoveAll env;
     crane_Export := crane_Export env;
     archiver_Unarchive := archiver_Unarchive env;
     os_Remove := os_Remove env;
     os_Chdir := os_Chdir env;
     Crawl := Crawl env |}.

(** The environment [env] with other crawls. *)
Definition with_crawl (crawl : string -> CrawlRun) (env : Env) : Env :=
  {| ImageList := ImageList env;
     ParseReference := ParseReference env;
     daemon_Image := daemon_Image env;
     MkdirTemp := MkdirTemp env;
     os_Create := os_Create env;
     File_Close := File_Close env;
     os_RemoveAll := os_RemoveAll env;
     crane_Export := crane_Export env;
     archiver_Unarchive := archiver_Unarchive env;
     os_Remove := os_Remove env;
     os_Chdir := os_Chdir env;
     Crawl := crawl |}.



(** The name [scanImage] asks [os.MkdirTemp] for. *)
Definition temp_pattern (image : ImageSummary) : string :=
  "log4j-sniffer-" +:+ ID image.

End Cleanup.

(** *** Two small daemons to run the scanner on *)

(** Counters for [crawl.Stats] and for the reporter, a flag for the
    configuration, and a summary that shows both numbers. *)
Definition counters : Packages := {|
  Stats := Z;
  Stats_zero := 0%Z;
  Append := Z.add;
  Reporter := Z;
  SetImageID := fun _ r => r;
  SetImageTags := fun _ r => r;
  Count := fun r => r;
  Config := bool;
  OutputSummary := fun c => c;
  WriteSummary := fun _ stats count =>
    ("filesScanned: " +:+ pretty stats
     +:+ " vulnerableFileCount: " +:+ pretty count, None);
  Reference := string;
  Image := string;
|}.

(** One image, on a machine out of file descriptors. *)
Module Leak.

#[local] Existing Instance counters.

Definition image : ImageSummary :=
  {| ID := "sha256:0a1b"; RepoTags := ["app:latest"] |}.

Definition imageTmpDir : string := "/tmp/log4j-sniffer-sha256:0a1b1592".

Definition too_many_files : error :=
  NewError
    "open /tmp/log4j-sniffer-sha256:0a1b1592/image.tar: too many open files".

(** Every call succeeds but [os.Create], which finds no free file
    descriptor. *)
Definition env : Env := {|
  ImageList := ([image], None);
  ParseReference := fun tag => (tag, None);
  daemon_Image := fun ref => (ref, None);
  MkdirTemp := fun pattern => ("/tmp/" +:+ pattern +:+ "1592", None);
  os_Create := fun _ => Some too_many_files;
  File_Close := fun _ => None;
  os_RemoveAll := fun _ => None;
  crane_Export := fun _ _ => None;
  archiver_Unarchive := fun _ _ => ([], None);
  os_Remove := fun _ => None;
  os_Chdir := fun _ => None;
  Crawl := fun _ =>
    {| run_stats := 0%Z; run_err := None; run_collect := fun r => r;
       run_stderr := []; run_stdout := [] |};
|}.

Definition start : World :=
  {| fs := ∅; cwd := "/"; stderr := []; stdout := []; reporter := 0%Z |}.

End Leak.

(** Four images: one without a tag and one the daemon cannot produce,
    between two that scan well. *)
Module Fleet.

#[local] Existing Instance counters.

Definition images : list ImageSummary :=
  [ {| ID := "sha256:aa"; RepoTags := ["web:1"; "web:latest"] |};
    {| ID := "sha256:bb"; RepoTags := [] |};
    {| ID := "sha256:cc"; RepoTags := ["broken:2"] |};
    {| ID := "sha256:dd"; RepoTags := ["db:3"] |} ].

Definition no_such_image : error := NewError "No such image: broken:2".

Definition env : Env := {|
  ImageList := (images, None);
  ParseReference := fun tag => (tag, None);
  daemon_Image := fun ref =>
    if String.eqb ref "broken:2" then ("", Some no_such_image)
    else (ref, None);
  MkdirTemp := fun pattern => ("/tmp/" +:+ pattern, None);
  os_Create := fun _ => None;
  File_Close := fun _ => None;
  os_RemoveAll := fun _ => None;
  crane_Export := fun _ _ => None;
  archiver_Unarchive := fun _ dir => ([dir +:+ "/etc"; dir +:+ "/app"], None);
  os_Remove := fun _ => None;
  os_Chdir := fun _ => None;
  Crawl := fun dir =>
    if String.eqb dir "/tmp/log4j-sniffer-sha256:aa" then
      {| run_stats := 7%Z; run_err := None;
         run_collect := fun r => (r + 2)%Z;
         run_stderr := []; run_stdout := ["finding"; "finding"] |}
    else
      {| run_stats := 5%Z; run_err := None;
         run_collect := fun r => (r + 1)%Z;
         run_stderr := []; run_stdout := ["finding"] |};
|}.

Definition start : World :=
  {| fs := ∅; cwd := "/"; stderr := []; stdout := []; reporter := 0%Z |}.

End Fleet.

End Docker.

(** ** The reporter of package crawl *)

Module Report.

(** Modelled from the spec: the type [crawl.Finding], which is not part of
    the sources at hand, as the five independent evidence flags of the
    data model. *)
Record Finding : Type := {
  JarName : bool;
  JarNameInsideArchive : bool;
  ClassName : bool;
  ClassPackageAndName : bool;
  ClassFileMd5 : bool;
}.

Definition NothingDetected : Finding :=
  {| JarName := false; JarNameInsideArchive := false; ClassName := false;
     ClassPackageAndName := false; ClassFileMd5 := false |}.

Definition any_flag (f : Finding) : bool :=
  JarName f || JarNameInsideArchive f || ClassName f
  || ClassPackageAndName f || ClassFileMd5 f.

(** Modelled from the spec: the resolved version of a finding, a semantic
    version major.minor.patch; [None] when no version could be derived. *)
Record Version : Type := { major : nat; minor : nat; patch : nat }.

Definition version_lt (a b : Version) : bool :=
  (major a <? major b)%nat
  || ((major a =? major b)%nat
      && ((minor a <? minor b)%nat
          || ((minor a =? minor b)%nat && (patch a <? patch b)%nat))).

Definition version_le (a b : Version) : bool := negb (version_lt b a).

(** Modelled from the spec: the band of the narrow CVE (CVE-2021-45105),
    versions from 2.16.0 up to, not including, 2.17.0. *)
Definition in_narrow_band (v : Version) : bool :=
  version_le {| major := 2; minor := 16; patch := 0 |} v
  && version_lt v {| major := 2; minor := 17; patch := 0 |}.

(** Modelled from the spec: a match falls only in the narrow band when its
    version resolved and lies in the band; a match whose version lies
    elsewhere, or did not resolve, is covered by the base CVE pair. *)
Definition narrow_only (version : option Version) : bool :=
  match version with
  | Some v => in_narrow_band v
  | None => false
  end.

(** Modelled from the spec: the matches the base CVE pair covers, which
    remain counted under the switch. *)
Definition covered_by_base (version : option Version) : bool :=
  negb (narrow_only version).

(** Modelled from the spec: what the walker hands to [Collect] for one
    scanned path. *)
Record Scanned : Type := {
  path : string;
  finding : Finding;
  version : option Version;
}.

(** Modelled from the spec: the state of [crawl.Reporter], which is not
    part of the sources at hand: the suppression switch, the counter of
    collected paths, the counter of vulnerable paths and the records
    sent to the sink. *)
Record Reporter : Type := {
  DisableCVE45105 : bool;
  collected : Z;
  count : Z;
  records : list Scanned;
}.

(** Modelled from the spec: a path is reported when a flag is set and the
    suppression rule does not exclude it. *)
Definition reported (disable : bool) (s : Scanned) : bool :=
  any_flag (finding s) && negb (disable && narrow_only (version s)).

(** Modelled from the spec: [Reporter.Collect], which counts every path
    and, for a reported one, increments the vulnerable-path counter and
    appends its record. *)
Definition Collect (r : Reporter) (s : Scanned) : Reporter :=
  if reported (DisableCVE45105 r) s then
    {| DisableCVE45105 := DisableCVE45105 r;
       collected := collected r + 1;
       count := count r + 1;
       records := records r ++ [s] |}
  else
    {| DisableCVE45105 := DisableCVE45105 r;
       collected := collected r + 1;
       count := count r;
       records := records r |}.

(** Modelled from the spec: [Reporter.Count], the cumulative count of
    vulnerable paths, shown as [vulnerableFileCount]. *)
Definition Count (r : Reporter) : Z := count r.

(** Modelled from the spec: a crawl hands its paths to [Collect] one after
    the other. *)
Definition collect_all (r : Reporter) (paths : list Scanned) : Reporter :=
  foldl Collect r paths.

(** *** A crawl to run the reporter on *)

Definition jar_named (p : string) (v : Version) : Scanned :=
  {| path := p;
     finding := {| JarName := true; JarNameInsideArchive := false;
                   ClassName := false; ClassPackageAndName := false;
                   ClassFileMd5 := false |};
     version := Some v |}.

(** A jar of the narrow band, a jar of the base range, a shaded class of
    unknown version and a file without any evidence. *)
Definition mixed_tree : list Scanned :=
  [ jar_named "lib/log4j-core-2.16.0.jar"
      {| major := 2; minor := 16; patch := 0 |};
    jar_named "lib/log4j-core-2.14.1.jar"
      {| major := 2; minor := 14; patch := 1 |};
    {| path := "app.jar!shaded/JndiManager.class";
       finding := {| JarName := false; JarNameInsideArchive := false;
                     ClassName := true; ClassPackageAndName := false;
                     ClassFileMd5 := false |};
       version := None |};
    {| path := "lib/guava-31.0.jar"; finding := NothingDetected;
       version := None |} ].

Definition fresh (disable : bool) : Reporter :=
  {| DisableCVE45105 := disable; collected := 0; count := 0; records := [] |}.

End Report.

(** ** More daemons: the four images with other outcomes *)

Module Trial.

#[local] Existing Instance Docker.counters.

Definition web : Docker.ImageSummary :=
  {| Docker.ID := "sha256:aa"; Docker.RepoTags := ["web:1"; "web:latest"] |}.

Definition broken : Docker.ImageSummary :=
  {| Docker.ID := "sha256:cc"; Docker.RepoTags := ["broken:2"] |}.

Definition web_dir : string := "/tmp/log4j-sniffer-sha256:aa".

Definition busy : Docker.error :=
  Docker.NewError "unlinkat /tmp/log4j-sniffer-sha256:aa: device or resource busy".

Definition io_error : Docker.error :=
  Docker.NewError "close /tmp/log4j-sniffer-sha256:aa/image.tar: input/output error".

Definition daemon_down : Docker.error :=
  Docker.NewError "Cannot connect to the Docker daemon".

(** [os.RemoveAll] fails. *)
Definition stuck : Docker.Env :=
  Docker.with_cleanup (fun _ => None) (fun _ => Some busy) Docker.Fleet.env.

(** [outFile.Close] fails. *)
Definition unsynced : Docker.Env :=
  Docker.with_cleanup (fun _ => Some io_error) (fun _ => None)
    Docker.Fleet.env.

(** The daemon does not answer. *)
Definition down : Docker.Env :=
  Docker.with_images ([], Some daemon_down) Docker.Fleet.env.

(** The daemon holds images without a tag only. *)
Definition dangling : Docker.Env :=
  Docker.with_images
    ([ {| Docker.ID := "sha256:bb"; Docker.RepoTags := [] |};
       {| Docker.ID := "sha256:ee"; Docker.RepoTags := [] |} ], None)
    Docker.Fleet.env.

(** The crawl of the last image is cut short: it has handed one finding to
    the reporter when it returns an error. *)
Definition canceled : Docker.error := Docker.NewError "context canceled".

Definition interrupted : Docker.Env :=
  Docker.with_crawl
    (fun dir =>
       if String.eqb dir "/tmp/log4j-sniffer-sha256:aa" then
         {| Docker.run_stats := 7%Z; Docker.run_err := None;
            Docker.run_collect := fun r => (r + 2)%Z;
            Docker.run_stderr := [];
            Docker.run_stdout := ["finding"; "finding"] |}
       else
         {| Docker.run_stats := 4%Z; Docker.run_err := Some canceled;
            Docker.run_collect := fun r => (r + 1)%Z;
            Docker.run_stderr := []; Docker.run_stdout := ["finding"] |})
    Docker.Fleet.env.

(** A machine whose [TMPDIR] is the relative path [tmp]. *)
Definition relative_dir : string := "tmp/log4j-sniffer-sha256:aa".

Definition relative : Docker.Env := {|
  Docker.ImageList := ([web], None);
  Docker.ParseReference := fun tag => (tag, None);
  Docker.daemon_Image := fun ref => (ref, None);
  Docker.MkdirTemp := fun pattern => ("tmp/" +:+ pattern, None);
  Docker.os_Create := fun _ => None;
  Docker.File_Close := fun _ => None;
  Docker.os_RemoveAll := fun _ => None;
  Docker.crane_Export := fun _ _ => None;
  Docker.archiver_Unarchive := fun _ _ => ([], None);
  Docker.os_Remove := fun _ => None;
  Docker.os_Chdir := fun _ => None;
  Docker.Crawl := fun _ =>
    {| Docker.run_stats := 7%Z; Docker.run_err := None;
       Docker.run_collect := fun r => (r + 2)%Z;
       Docker.run_stderr := []; Docker.run_stdout := [] |};
|}.

Definition work : Docker.World :=
  {| Docker.fs := {[ "/work/tmp" ]}; Docker.cwd := "/work";
     Docker.stderr := []; Docker.stdout := []; Docker.reporter := 0%Z |}.

(** A machine with a file of its own. *)
Definition home : Docker.World :=
  {| Docker.fs := {[ "/etc/passwd" ]}; Docker.cwd := "/"; Docker.stderr := [];
     Docker.stdout := []; Docker.reporter := 0%Z |}.

End Trial.

(** * Properties *)

(** ** Splitting and joining *)

Example parse_app_tar_gz :
  ParseArchiveFormatFromFile "app.tar.gz" = (TarGzArchive, true).
Proof. vm_compute. reflexivity. Qed.

Example parse_readme :
  ParseArchiveFormatFromFile "README.md" = (UnsupportedArchive, false).
Proof. vm_compute. reflexivity. Qed.

Example parse_whole_name_is_key :
  ParseArchiveFormatFromFile "tar.gz" = (TarGzArchive, true).
Proof. vm_compute. reflexivity. Qed.

Example parse_hidden_zip :
  ParseArchiveFormatFromFile ".zip" = (ZipArchive, true).
Proof. vm_compute. reflexivity. Qed.

Example parse_upper_case :
  ParseArchiveFormatFromFile "app.TAR" = (UnsupportedArchive, false).
Proof. vm_compute. reflexivity. Qed.

Example parse_third_segment :
  ParseArchiveFormatFromFile "app.tar.gz.bak" = (UnsupportedArchive, false).
Proof. vm_compute. reflexivity. Qed.

Example parse_tar_bz2 :
  ParseArchiveFormatFromFile "logs.2021.tar.bz2" = (TarBz2Archive, true).
Proof. vm_compute. reflexivity. Qed.

Example split_empty : Split "" = [""].
Proof. reflexivity. Qed.

Example split_dots : Split "a..b." = ["a"; ""; "b"; ""].
Proof. reflexivity. Qed.


Section SplitJoin.

Lemma Split_nonempty (s : string) : Split s <> [].
Proof.
  destruct s as [|c s]; simpl; [discriminate|].
  destruct (is_dot c); [discriminate|].
  destruct (Split s); discriminate.
Qed.

Lemma Split_length_pos (s : string) : (1 <= length (Split s))%nat.
Proof.
  pose proof (Split_nonempty s) as Hne.
  destruct (Split s); [congruence | simpl; lia].
Qed.

(** Splitting a string without separator returns it whole. *)
Lemma Split_dotfree (s : string) : dotfree s = true -> Split s = [s].
Proof.
  induction s as [|c s IH]; simpl; [reflexivity|].
  destruct (is_dot c); simpl; [discriminate|].
  intros Hs. rewrite (IH Hs). reflexivity.
Qed.

(** A separator between two strings separates their segments. *)
Lemma Split_app_dot (a b : string) :
  Split (a +:+ String dot b) = Split a ++ Split b.
Proof.
  induction a as [|c a IH]; simpl.
  - reflexivity.
  - rewrite IH. destruct (is_dot c); [reflexivity|].
    pose proof (Split_nonempty a) as Hne.
    destruct (Split a); [congruence | reflexivity].
Qed.

(** No segment of a split contains the separator. *)
Lemma Split_segments_dotfree (s : string) :
  Forall (fun seg => dotfree seg = true) (Split s).
Proof.
  induction s as [|c s IH]; simpl.
  - repeat constructor.
  - destruct (is_dot c) eqn:Hc.
    + constructor; [reflexivity | exact IH].
    + destruct (Split s) as [|seg segs]; [repeat constructor; simpl; by rewrite Hc|].
      inversion IH; subst. constructor; [|assumption].
      simpl. rewrite Hc. assumption.
Qed.

Lemma Join_cons (e : string) (rest : list string) :
  rest <> [] -> Join (e :: rest) = e +:+ String dot (Join rest).
Proof. destruct rest; [congruence | reflexivity]. Qed.

(** Joining dot-free segments and splitting again returns the segments. *)
Lemma Split_Join (segs : list string) :
  segs <> [] -> Forall (fun seg => dotfree seg = true) segs ->
  Split (Join segs) = segs.
Proof.
  induction segs as [|e rest IH]; [congruence|].
  intros _ Hall. inversion Hall as [|? ? He Hrest]; subst.
  destruct rest as [|e' rest'].
  - simpl. by apply Split_dotfree.
  - rewrite Join_cons by discriminate.
    rewrite Split_app_dot, (Split_dotfree e He), IH by (done || discriminate).
    reflexivity.
Qed.

(** Joining the segments of a split returns the string. *)
Lemma Join_Split (s : string) : Join (Split s) = s.
Proof.
  induction s as [|c s IH]; simpl; [reflexivity|].
  pose proof (Split_nonempty s) as Hne.
  destruct (is_dot c) eqn:Hc.
  - rewrite Join_cons by assumption. rewrite IH. simpl.
    unfold is_dot in Hc. apply bool_decide_eq_true_1 in Hc. by subst.
  - destruct (Split s) as [|seg segs]; [congruence|].
    destruct segs as [|seg' segs'].
    + simpl in *. by subst.
    + rewrite <- IH. reflexivity.
Qed.

Lemma drop_last_one {A} (front : list A) (x : A) :
  drop (length (front ++ [x]) - 1) (front ++ [x]) = [x].
Proof.
  rewrite length_app. simpl.
  replace (length front + 1 - 1)%nat with (length front) by lia.
  by rewrite drop_app_length.
Qed.

Lemma drop_last_two {A} (front : list A) (x y : A) :
  drop (length (front ++ [x; y]) - 2) (front ++ [x; y]) = [x; y].
Proof.
  rewrite length_app. simpl.
  replace (length front + 2 - 2)%nat with (length front) by lia.
  by rewrite drop_app_length.
Qed.

(** A list of two or more elements ends in two elements. *)
Lemma two_last {A} (l : list A) :
  (2 <= length l)%nat -> exists front x y, l = front ++ [x; y].
Proof.
  induction l as [|a l IH]; simpl; [lia|].
  intros Hlen. destruct l as [|b l]; simpl in *; [lia|].
  destruct l as [|c l].
  - exists [], a, b. reflexivity.
  - destruct IH as (front & x & y & ->); [simpl; lia|].
    exists (a :: front), x, y. reflexivity.
Qed.

(** The last [k] elements, taken from the end, are what [drop] leaves. *)
Lemma last_by_drop {A} (k : nat) (l : list A) :
  reverse (take k (reverse l)) = drop (length l - k) l.
Proof.
  rewrite take_reverse, reverse_involutive. reflexivity.
Qed.

End SplitJoin.

(** ** The format detector *)

Section Detector.

(** The keys of [extensions] and their formats, one by one. *)
Lemma extensions_lookup_Some (key : string) (format : FormatType) :
  extensions !! key = Some format ->
  In (key, format)
     [("ear", ZipArchive); ("jar", ZipArchive); ("par", ZipArchive);
      ("war", ZipArchive); ("zip", ZipArchive); ("tar", TarArchive);
      ("tar.gz", TarGzArchive); ("tgz", TarGzArchive);
      ("tar.bz2", TarBz2Archive); ("tbz2", TarBz2Archive)].
Proof.
  unfold extensions. intros Hkey.
  repeat (apply lookup_insert_Some in Hkey as [[<- <-]|[_ Hkey]];
          [simpl; tauto|]).
  rewrite lookup_empty in Hkey. discriminate.
Qed.

(** No format is ever registered as unsupported. *)
Lemma extensions_supported (key : string) :
  extensions !! key <> Some UnsupportedArchive.
Proof.
  intros Hkey. apply extensions_lookup_Some in Hkey. simpl in Hkey.
  repeat (destruct Hkey as [Hkey|Hkey]; [discriminate|]). exact Hkey.
Qed.

(** What the loop computes on a split that ends in the segments [x], [y]:
    the lookup of [y] comes first, that of [x.y] second. *)
Lemma Parse_two_last (filename : string) (front : list string) (x y : string) :
  Split filename = front ++ [x; y] ->
  ParseArchiveFormatFromFile filename =
    match extensions !! y with
    | Some archive => (archive, true)
    | None =>
        match extensions !! Join [x; y] with
        | Some archive => (archive, true)
        | None => (UnsupportedArchive, false)
        end
    end.
Proof.
  intros Hsplit. unfold ParseArchiveFormatFromFile. cbv zeta.
  rewrite Hsplit. rewrite bool_decide_eq_false_2
    by (rewrite length_app; simpl; lia).
  unfold search_suffixes.
  rewrite drop_last_two.
  replace (front ++ [x; y]) with ((front ++ [x]) ++ [y])
    by (rewrite <- app_assoc; reflexivity).
  rewrite drop_last_one. reflexivity.
Qed.

(** The same for the detector that looks up [x.y] first. *)
Lemma detect_two_last (filename : string) (front : list string) (x y : string) :
  Split filename = front ++ [x; y] ->
  detect_two_then_one filename =
    match extensions !! Join [x; y] with
    | Some format => (format, true)
    | None =>
        match extensions !! y with
        | Some format => (format, true)
        | None => (UnsupportedArchive, false)
        end
    end.
Proof.
  intros Hsplit. unfold detect_two_then_one. cbv zeta.
  rewrite Hsplit. rewrite bool_decide_eq_false_2
    by (rewrite length_app; simpl; lia).
  rewrite drop_last_two.
  replace (front ++ [x; y]) with ((front ++ [x]) ++ [y])
    by (rewrite <- app_assoc; reflexivity).
  rewrite drop_last_one. reflexivity.
Qed.

(** A two-segment key never ends in a one-segment key: when [x.y] is in
    the table, [y] alone is not. *)
Lemma two_segment_key_excludes_last (x y : string) :
  dotfree x = true -> dotfree y = true ->
  is_Some (extensions !! Join [x; y]) -> extensions !! y = None.
Proof.
  intros Hx Hy [format Hkey].
  apply extensions_lookup_Some in Hkey.
  assert (Hsplit : Split (Join [x; y]) = [x; y]).
  { apply Split_Join; [discriminate | repeat constructor; assumption]. }
  simpl in Hkey. simpl Join in Hsplit.
  repeat (destruct Hkey as [Hkey|Hkey];
          [injection Hkey as Hjoin _; rewrite <- Hjoin in Hsplit;
           vm_compute in Hsplit; try discriminate;
           injection Hsplit as _ <-; vm_compute; reflexivity|]).
  destruct Hkey.
Qed.

(** A filename that ends in a dot-free extension of the table has the
    format of that extension. *)
Lemma Parse_extension (base ext : string) (format : FormatType) :
  dotfree ext = true -> extensions !! ext = Some format ->
  ParseArchiveFormatFromFile (with_extension base ext) = (format, true).
Proof.
  intros Hext Hkey. unfold ParseArchiveFormatFromFile, with_extension.
  cbv zeta. rewrite Split_app_dot, (Split_dotfree ext Hext).
  pose proof (Split_length_pos base) as Hlen.
  rewrite bool_decide_eq_false_2 by (rewrite length_app; simpl; lia).
  unfold search_suffixes. rewrite drop_last_one. simpl. rewrite Hkey.
  reflexivity.
Qed.

(** A filename that ends in [.x.y], the key [x.y] being in the table. *)
Lemma Parse_compound_extension (base x y : string) (format : FormatType) :
  dotfree x = true -> dotfree y = true ->
  extensions !! Join [x; y] = Some format ->
  ParseArchiveFormatFromFile (with_extension base (Join [x; y]))
  = (format, true).
Proof.
  intros Hx Hy Hkey.
  rewrite (Parse_two_last _ (Split base) x y).
  - rewrite (two_segment_key_excludes_last x y Hx Hy) by eauto.
    rewrite Hkey. reflexivity.
  - unfold with_extension. simpl.
    rewrite !Split_app_dot, (Split_dotfree x Hx), (Split_dotfree y Hy).
    reflexivity.
Qed.

End Detector.

(** X1. The flag tells whether a format was found: it is set exactly when
    the format is a supported one. *)
Lemma matched_iff_supported (filename : string) :
  snd (ParseArchiveFormatFromFile filename) = true
  <-> fst (ParseArchiveFormatFromFile filename) <> UnsupportedArchive.
Proof.
  unfold ParseArchiveFormatFromFile. cbv zeta.
  destruct (bool_decide _); simpl; [split; [discriminate | congruence]|].
  repeat match goal with
    | |- context [extensions !! ?k] =>
        let Hk := fresh "Hkey" in
        destruct (extensions !! k) as [[]|] eqn:Hk; simpl;
        try (exfalso; exact (extensions_supported _ Hk))
    end;
    split; (discriminate || congruence).
Qed.

(** C1. For every filename the detector returns what looking up the
    two-segment suffix first and the one-segment suffix second returns, both
    taken from the end of the filename split on the dot; a filename ending
    in [.tar.gz], and [app.tar.gz] in particular, resolves to
    [TarGzArchive]. *)
Theorem detector_two_then_one :
  (forall filename : string,
     ParseArchiveFormatFromFile filename = detect_two_then_one filename)
  /\ ParseArchiveFormatFromFile "app.tar.gz" = (TarGzArchive, true)
  /\ (forall base : string,
        ParseArchiveFormatFromFile (with_extension base "tar.gz")
        = (TarGzArchive, true)).
Proof.
  split; [|split].
  - intros filename.
    destruct (decide (length (Split filename) < 2)%nat) as [Hshort|Hlong].
    + unfold ParseArchiveFormatFromFile, detect_two_then_one. cbv zeta.
      rewrite !bool_decide_eq_true_2 by assumption. reflexivity.
    + destruct (two_last (Split filename)) as (front & x & y & Hsplit); [lia|].
      rewrite (Parse_two_last _ _ _ _ Hsplit), (detect_two_last _ _ _ _ Hsplit).
      pose proof (Split_segments_dotfree filename) as Hfree.
      rewrite Hsplit in Hfree. apply Forall_app in Hfree as [_ Hfree].
      inversion Hfree as [|? ? Hx Hrest]; subst.
      inversion Hrest as [|? ? Hy _]; subst.
      destruct (extensions !! Join [x; y]) as [format|] eqn:Htwo.
      * rewrite (two_segment_key_excludes_last x y Hx Hy) by (rewrite Htwo; eauto).
        reflexivity.
      * destruct (extensions !! y); reflexivity.
  - vm_compute. reflexivity.
  - intros base.
    apply (Parse_compound_extension base "tar" "gz"); reflexivity.
Qed.

(** C5. A filename none of whose trailing dot-suffixes of one or of two
    segments is a key of the extension table is answered with
    [UnsupportedArchive] and [false]; the detector has no other way to
    report it, its result being a format and a flag. *)
Theorem no_match_is_unsupported (filename : string) :
  extensions !! dot_suffix 1 filename = None ->
  extensions !! dot_suffix 2 filename = None ->
  ParseArchiveFormatFromFile filename = (UnsupportedArchive, false).
Proof.
  unfold dot_suffix, last_segments. rewrite !last_by_drop.
  intros Hone Htwo.
  destruct (decide (length (Split filename) < 2)%nat) as [Hshort|Hlong].
  - unfold ParseArchiveFormatFromFile. cbv zeta.
    rewrite bool_decide_eq_true_2 by assumption. reflexivity.
  - destruct (two_last (Split filename)) as (front & x & y & Hsplit); [lia|].
    rewrite (Parse_two_last _ _ _ _ Hsplit).
    rewrite Hsplit in Hone, Htwo.
    rewrite drop_last_two in Htwo.
    replace (front ++ [x; y]) with ((front ++ [x]) ++ [y]) in Hone
      by (rewrite <- app_assoc; reflexivity).
    rewrite drop_last_one in Hone. simpl in Hone.
    rewrite Hone, Htwo. reflexivity.
Qed.

Lemma no_match_is_unsupported_witness :
  dot_suffix 1 "README.md" = "md"
  /\ dot_suffix 2 "README.md" = "README.md"
  /\ ParseArchiveFormatFromFile "README.md" = (UnsupportedArchive, false).
Proof.
  split; [reflexivity|]. split; [reflexivity|].
  apply (no_match_is_unsupported "README.md"); vm_compute; reflexivity.
Defined.

(** C6. A filename that ends in one of the extensions zip, jar, war, ear and
    par is detected, and as the one zip-family format [ZipArchive]. *)
Theorem zip_family_detected (base ext : string) :
  In ext ["zip"; "jar"; "war"; "ear"; "par"] ->
  ParseArchiveFormatFromFile (with_extension base ext) = (ZipArchive, true).
Proof.
  simpl. intros Hext.
  repeat (destruct Hext as [<-|Hext];
          [apply Parse_extension; vm_compute; reflexivity|]).
  destruct Hext.
Qed.

Lemma zip_family_detected_witness :
  with_extension "app" "war" = "app.war"
  /\ ParseArchiveFormatFromFile "app.war" = (ZipArchive, true).
Proof.
  split; [reflexivity|].
  apply (zip_family_detected "app" "war"). simpl. tauto.
Defined.

(** C8. The table also holds the one-segment extensions tgz and tbz2: a
    filename ending in [.tgz] is a [TarGzArchive] and one ending in [.tbz2]
    a [TarBz2Archive]. *)
Theorem short_tar_extensions :
  extensions !! "tgz" = Some TarGzArchive
  /\ extensions !! "tbz2" = Some TarBz2Archive
  /\ (forall base : string,
        ParseArchiveFormatFromFile (with_extension base "tgz")
        = (TarGzArchive, true))
  /\ (forall base : string,
        ParseArchiveFormatFromFile (with_extension base "tbz2")
        = (TarBz2Archive, true)).
Proof.
  repeat split; try (vm_compute; reflexivity);
    intros base; apply Parse_extension; vm_compute; reflexivity.
Qed.

(** C9. A filename without any dot is answered with [UnsupportedArchive]
    and [false], whatever it is: the table is not consulted, so a bare key
    such as [tar] is no container either. *)
Theorem no_dot_is_unsupported (filename : string) :
  dotfree filename = true ->
  ParseArchiveFormatFromFile filename = (UnsupportedArchive, false).
Proof.
  intros Hfree. unfold ParseArchiveFormatFromFile. cbv zeta.
  rewrite (Split_dotfree filename Hfree). reflexivity.
Qed.

Lemma no_dot_is_unsupported_witness :
  extensions !! "tar" = Some TarArchive
  /\ ParseArchiveFormatFromFile "tar" = (UnsupportedArchive, false).
Proof.
  split; [vm_compute; reflexivity|].
  apply (no_dot_is_unsupported "tar"). reflexivity.
Defined.

(** ** The tar reader providers *)

Section ProviderErrors.

Context {Reader TarReader GoError : Type}.
Variable gzip_NewReader : Reader -> Reader * option GoError.
Variable bzip2_NewReader : Reader -> Reader.
Variable tar_NewReader : Reader -> TarReader.

Abbreviation TarGzipReader :=
  (Readers.TarGzipReader gzip_NewReader tar_NewReader).
Abbreviation TarBzip2Reader :=
  (Readers.TarBzip2Reader (GoError := GoError) bzip2_NewReader tar_NewReader).
Abbreviation TarUncompressedReader :=
  (Readers.TarUncompressedReader (GoError := GoError) tar_NewReader).

(** C10. Whatever the byte source and whatever the constructors of the
    standard library return, [TarBzip2Reader] and [TarUncompressedReader]
    return a reader and a nil error, and the error [TarGzipReader] returns
    is the error of [gzip.NewReader]: non-nil exactly when that one is, and
    then without a reader. *)
Theorem provider_errors (iReader : Reader) :
  snd (TarBzip2Reader iReader) = None
  /\ snd (TarUncompressedReader iReader) = None
  /\ is_Some (fst (TarBzip2Reader iReader))
  /\ is_Some (fst (TarUncompressedReader iReader))
  /\ snd (TarGzipReader iReader) = snd (gzip_NewReader iReader)
  /\ fst (TarGzipReader iReader)
     = match snd (gzip_NewReader iReader) with
       | Some _ => None
       | None => Some (tar_NewReader (fst (gzip_NewReader iReader)))
       end.
Proof.
  unfold Readers.TarBzip2Reader, Readers.TarUncompressedReader,
    Readers.TarGzipReader.
  destruct (gzip_NewReader iReader) as [gzipReader [e|]]; simpl;
    repeat split; eauto.
Qed.

End ProviderErrors.

(** ** The docker image scanner *)

Section ScannerProperties.

Import Docker.
Context `{Packages}.
Variable env : Env.
Variable config : Config.

(** Takes a call of [scanImage] apart, one outcome of the environment
    after the other. *)
Ltac scan_cases :=
  unfold scanImage, export_and_crawl, deferred;
  repeat match goal with
    | |- context [match ?x with _ => _ end] =>
        lazymatch x with
        | context [match _ with _ => _ end] => fail
        | _ => destruct x eqn:?
        end
    end;
  simpl.

Ltac appended :=
  first [ by exists []; rewrite app_nil_r
        | eexists; rewrite <- ?app_assoc; reflexivity ].

(** An image with a tag is scanned to the end: [scanImage] returns. *)
Lemma scanImage_returns (image : ImageSummary) (w : World) :
  RepoTags image <> [] -> is_Some (scanImage env image w).
Proof.
  intros Htags. scan_cases; try congruence; eauto.
Qed.

(** The pair [scanImage] returns is decided by the environment. *)
Lemma result_of_world (image : ImageSummary) (w1 w2 : World) :
  result_of env w1 image = result_of env w2 image.
Proof.
  unfold result_of. scan_cases; congruence.
Qed.

(** So is the reporter it leaves, given the one it found. *)
Lemma scanImage_reporter (image : ImageSummary) (w1 w2 : World) :
  reporter w1 = reporter w2 ->
  (reporter ∘ snd) <$> scanImage env image w1
  = (reporter ∘ snd) <$> scanImage env image w2.
Proof.
  intros Hrep. scan_cases; congruence.
Qed.

(** [scanImage] only ever adds to the two writers. *)
Lemma scanImage_stderr (image : ImageSummary) (w w' : World) ret :
  scanImage env image w = Some (ret, w') ->
  exists extra, stderr w' = stderr w ++ extra.
Proof.
  scan_cases; intros Hscan; simplify_eq; simpl; appended.
Qed.

Lemma scanImage_stdout (image : ImageSummary) (w w' : World) ret :
  scanImage env image w = Some (ret, w') ->
  exists extra, stdout w' = stdout w ++ extra.
Proof.
  scan_cases; intros Hscan; simplify_eq; simpl; appended.
Qed.

(** X19. The reporter is reached through the crawl alone: a scan either
    leaves the reporter as it found it, or has run its crawl and returns
    what the crawl returned. *)
Lemma scanImage_collects_in_crawl (image : ImageSummary) (w w' : World) ret :
  scanImage env image w = Some (ret, w') ->
  reporter w' = reporter w
  \/ exists dir, ret = (run_stats (Crawl env dir), run_err (Crawl env dir))
                 /\ reporter w' = run_collect (Crawl env dir) (reporter w).
Proof.
  scan_cases; intros Hscan; simplify_eq; simpl; eauto.
Qed.

Lemma tagged_images_untagged (image : ImageSummary) rest :
  RepoTags image = [] -> tagged_images (image :: rest) = tagged_images rest.
Proof.
  intros Htags. unfold tagged_images. rewrite filter_cons_False; [done|].
  intros Hne. by apply Hne.
Qed.

Lemma tagged_images_tagged (image : ImageSummary) rest :
  RepoTags image <> [] ->
  tagged_images (image :: rest) = image :: tagged_images rest.
Proof.
  intros Htags. unfold tagged_images. by rewrite filter_cons_True.
Qed.

Lemma scan_loop_untagged (image : ImageSummary) rest stats (w : World) :
  RepoTags image = [] ->
  scan_loop env (image :: rest) stats w = scan_loop env rest stats w.
Proof. intros Htags. simpl. by rewrite Htags. Qed.

Lemma scan_loop_tagged (image : ImageSummary) rest stats (w : World) :
  RepoTags image <> [] ->
  scan_loop env (image :: rest) stats w
  = match scanImage env image
            (with_reporter (SetImageTags (RepoTags image))
               (with_reporter (SetImageID (ID image)) w)) with
    | None => None
    | Some ((imageStats, Some err), w) =>
        scan_loop env rest stats (eprint (Error err +:+ newline) w)
    | Some ((imageStats, None), w) =>
        scan_loop env rest (Append stats imageStats) w
    end.
Proof. intros Htags. simpl. by destruct (RepoTags image). Qed.

Lemma succeeded_stats_untagged (w0 : World) (image : ImageSummary) rest :
  RepoTags image = [] ->
  succeeded_stats env w0 (image :: rest) = succeeded_stats env w0 rest.
Proof.
  intros Htags. unfold succeeded_stats.
  by rewrite (tagged_images_untagged image rest Htags).
Qed.

Lemma failure_lines_untagged (w0 : World) (image : ImageSummary) rest :
  RepoTags image = [] ->
  failure_lines env w0 (image :: rest) = failure_lines env w0 rest.
Proof.
  intros Htags. unfold failure_lines.
  by rewrite (tagged_images_untagged image rest Htags).
Qed.

Lemma succeeded_stats_failed (w0 : World) (image : ImageSummary) rest st e :
  RepoTags image <> [] -> result_of env w0 image = Some (st, Some e) ->
  succeeded_stats env w0 (image :: rest) = succeeded_stats env w0 rest.
Proof.
  intros Htags Hresult. unfold succeeded_stats.
  rewrite (tagged_images_tagged image rest Htags). simpl.
  by rewrite Hresult.
Qed.

Lemma succeeded_stats_succeeded (w0 : World) (image : ImageSummary) rest st :
  RepoTags image <> [] -> result_of env w0 image = Some (st, None) ->
  succeeded_stats env w0 (image :: rest) = st :: succeeded_stats env w0 rest.
Proof.
  intros Htags Hresult. unfold succeeded_stats.
  rewrite (tagged_images_tagged image rest Htags). simpl.
  by rewrite Hresult.
Qed.

Lemma failure_lines_failed (w0 : World) (image : ImageSummary) rest st e :
  RepoTags image <> [] -> result_of env w0 image = Some (st, Some e) ->
  failure_lines env w0 (image :: rest)
  = (Error e +:+ newline) :: failure_lines env w0 rest.
Proof.
  intros Htags Hresult. unfold failure_lines.
  rewrite (tagged_images_tagged image rest Htags). simpl.
  by rewrite Hresult.
Qed.

Lemma failure_lines_succeeded (w0 : World) (image : ImageSummary) rest st :
  RepoTags image <> [] -> result_of env w0 image = Some (st, None) ->
  failure_lines env w0 (image :: rest) = failure_lines env w0 rest.
Proof.
  intros Htags Hresult. unfold failure_lines.
  rewrite (tagged_images_tagged image rest Htags). simpl.
  by rewrite Hresult.
Qed.

(** The loop of [ScanImages], whatever the images do: it reaches the end
    of the list, merges the [Stats] of the scans that succeeded, writes
    a line for each scan that failed and hands the reporter from each
    tagged image to the next.  [w0] is any world at all: the pair a scan
    returns does not depend on it. *)
Lemma scan_loop_runs (w0 : World) (imageList : list ImageSummary) :
  forall (stats : Stats) (w : World),
  exists (w' : World) (written reported : list string),
    scan_loop env imageList stats w
    = Some (foldl Append stats (succeeded_stats env w0 imageList), w')
    /\ stderr w' = stderr w ++ written
    /\ failure_lines env w0 imageList `sublist_of` written
    /\ stdout w' = stdout w ++ reported
    /\ reporter w'
       = foldl (reporter_after_image env w0) (reporter w)
           (tagged_images imageList).
Proof.
  induction imageList as [|image rest IH]; intros stats w.
  - exists w, [], []. simpl. rewrite !app_nil_r. repeat split; constructor.
  - destruct (decide (RepoTags image = [])) as [Htags|Htagged].
    + destruct (IH stats w) as (w' & written & reported & IHw).
      exists w', written, reported.
      rewrite (scan_loop_untagged image rest stats w Htags).
      rewrite (succeeded_stats_untagged w0 image rest Htags).
      rewrite (failure_lines_untagged w0 image rest Htags).
      rewrite (tagged_images_untagged image rest Htags).
      exact IHw.
    + set (named := with_reporter (SetImageTags (RepoTags image))
                      (with_reporter (SetImageID (ID image)) w)).
      destruct (scanImage_returns image named Htagged)
        as [[[imageStats err] w1] Hscan].
      assert (Hresult : result_of env w0 image = Some (imageStats, err)).
      { rewrite (result_of_world image w0 named). unfold result_of.
        by rewrite Hscan. }
      assert (Hreporter : reporter w1
                          = reporter_after_image env w0 (reporter w) image).
      { unfold reporter_after_image.
        pose proof (scanImage_reporter image named
          (with_reporter (fun _ => SetImageTags (RepoTags image)
                                     (SetImageID (ID image) (reporter w))) w0)
          eq_refl) as Hsame.
        rewrite Hscan in Hsame. simpl in Hsame.
        destruct (scanImage env image (with_reporter _ w0)) as [[? ?]|];
          simpl in Hsame; congruence. }
      destruct (scanImage_stderr image named w1 _ Hscan) as [extra Herr].
      destruct (scanImage_stdout image named w1 _ Hscan) as [shown Hout].
      rewrite (scan_loop_tagged image rest stats w Htagged).
      fold named. rewrite Hscan.
      rewrite (tagged_images_tagged image rest Htagged).
      destruct err as [e|].
      * destruct (IH stats (eprint (Error e +:+ newline) w1))
          as (w' & written & reported & Hloop & Hw & Hsub & Hr & Hrep).
        exists w', (extra ++ [Error e +:+ newline] ++ written),
          (shown ++ reported).
        rewrite (succeeded_stats_failed w0 image rest _ _ Htagged Hresult).
        rewrite (failure_lines_failed w0 image rest _ _ Htagged Hresult).
        rewrite Hloop, Hw, Hr, Hrep. simpl. rewrite Herr, Hout, Hreporter.
        rewrite <- !app_assoc. repeat split.
        apply sublist_inserts_l. simpl. by apply sublist_skip.
      * destruct (IH (Append stats imageStats) w1)
          as (w' & written & reported & Hloop & Hw & Hsub & Hr & Hrep).
        exists w', (extra ++ written), (shown ++ reported).
        rewrite (succeeded_stats_succeeded w0 image rest _ Htagged Hresult).
        rewrite (failure_lines_succeeded w0 image rest _ Htagged Hresult).
        rewrite Hloop, Hw, Hr, Hrep. simpl. rewrite Herr, Hout, Hreporter.
        rewrite <- !app_assoc. repeat split.
        by apply sublist_inserts_l.
Qed.


(** When [os.Create] fails the directory [os.MkdirTemp] has just made is
    still there as [scanImage] returns: nothing is deferred yet. *)
Lemma scanImage_create_failure (image : ImageSummary) (w : World)
    tag tags ref img dir e :
  RepoTags image = tag :: tags ->
  ParseReference env tag = (ref, None) ->
  daemon_Image env ref = (img, None) ->
  MkdirTemp env ("log4j-sniffer-" +:+ ID image) = (dir, None) ->
  os_Create env (filepath_Join dir "image.tar") = Some e ->
  scanImage env image w
  = Some ((Stats_zero, Some e),
          with_fs (fun paths => paths ∪ {[resolve (cwd w) dir]}) w).
Proof.
  intros Htags Href Himg Hdir Hcreate. unfold scanImage.
  rewrite Htags, Href, Himg, Hdir, Hcreate. reflexivity.
Qed.

Lemma remove_all_gone (dir : string) (paths : gset string) :
  dir ∉ remove_all dir paths.
Proof. unfold remove_all. set_solver. Qed.

End ScannerProperties.


(** C3. The scan of an image for which [os.MkdirTemp] succeeds and
    [os.Create] fails returns the error of [os.Create] and leaves the
    directory it has just created in place. *)
Theorem scanImage_leaves_directory :
  Docker.MkdirTemp Docker.Leak.env ("log4j-sniffer-" +:+ Docker.ID Docker.Leak.image)
  = (Docker.Leak.imageTmpDir, None)
  /\ (Docker.Leak.imageTmpDir ∉ Docker.fs Docker.Leak.start)
  /\ exists w' : Docker.World,
       Docker.scanImage Docker.Leak.env Docker.Leak.image Docker.Leak.start
       = Some ((0%Z, Some Docker.Leak.too_many_files), w')
       /\ Docker.Leak.imageTmpDir ∈ Docker.fs w'.
Proof.
  split; [reflexivity|]. split; [set_solver|].
  eexists. split.
  - apply (scanImage_create_failure (H := Docker.counters) Docker.Leak.env
             Docker.Leak.image Docker.Leak.start "app:latest" []
             "app:latest" "app:latest" Docker.Leak.imageTmpDir);
      reflexivity.
  - simpl. set_solver.
Qed.

(** ** The suppression of the narrow CVE *)

Section Suppression.

Import Report.

(** The band holds the versions 2.16.x and no other. *)
Lemma in_narrow_band_spec (v : Version) :
  in_narrow_band v = true <-> major v = 2%nat /\ minor v = 16%nat.
Proof.
  unfold in_narrow_band, version_le, version_lt. simpl.
  destruct v as [ma mi pa]. simpl.
  repeat match goal with
    | |- context [(?a <? ?b)%nat] => destruct (Nat.ltb_spec a b)
    | |- context [(?a =? ?b)%nat] => destruct (Nat.eqb_spec a b)
    end; simpl; split; try discriminate; try lia; intros _; lia.
Qed.

Lemma Collect_switch (r : Reporter) (s : Scanned) :
  DisableCVE45105 (Collect r s) = DisableCVE45105 r.
Proof. unfold Collect. by destruct (reported _ s). Qed.

Lemma Collect_count (r : Reporter) (s : Scanned) :
  Count (Collect r s)
  = (Count r + if reported (DisableCVE45105 r) s then 1 else 0)%Z.
Proof.
  unfold Collect, Count. destruct (reported _ s); simpl; lia.
Qed.

(** The count after a crawl: one more for every reported path. *)
Lemma collect_all_count (paths : list Scanned) :
  forall r : Reporter,
    DisableCVE45105 (collect_all r paths) = DisableCVE45105 r
    /\ Count (collect_all r paths)
       = (Count r
          + Z.of_nat (length (filter
               (fun s => reported (DisableCVE45105 r) s = true) paths)))%Z.
Proof.
  unfold collect_all.
  induction paths as [|s rest IH]; intros r; simpl.
  - split; [reflexivity | lia].
  - destruct (IH (Collect r s)) as [Hswitch Hcount].
    rewrite Hswitch, Hcount, Collect_switch, Collect_count. split; [done|].
    destruct (reported (DisableCVE45105 r) s) eqn:Hrep.
    + rewrite filter_cons_True by done. simpl length. lia.
    + rewrite filter_cons_False by congruence. lia.
Qed.

End Suppression.

(** C4. With the switch that disables CVE-2021-45105 set, a path whose
    resolved version lies in the band from 2.16.0 up to 2.17.0 leaves
    [vulnerableFileCount] as it was, a path with a flag set whose evidence
    is covered by the base CVE pair adds one to it, and the count after a
    whole crawl is the number of the paths of the second kind. *)
Theorem narrow_band_suppressed (r : Report.Reporter)
    (paths : list Report.Scanned) :
  Report.DisableCVE45105 r = true ->
  (forall s : Report.Scanned,
     Report.narrow_only (Report.version s) = true ->
     Report.Count (Report.Collect r s) = Report.Count r)
  /\ (forall s : Report.Scanned,
        Report.any_flag (Report.finding s) = true ->
        Report.covered_by_base (Report.version s) = true ->
        Report.Count (Report.Collect r s) = (Report.Count r + 1)%Z)
  /\ Report.Count (Report.collect_all r paths)
     = (Report.Count r
        + Z.of_nat (length (filter
            (fun s => Report.any_flag (Report.finding s)
                      && Report.covered_by_base (Report.version s) = true)
            paths)))%Z.
Proof.
  intros Hswitch. split; [|split].
  - intros s Hnarrow. rewrite Collect_count, Hswitch.
    unfold Report.reported. rewrite Hnarrow.
    destruct (Report.any_flag _); simpl; lia.
  - intros s Hflag Hbase. rewrite Collect_count, Hswitch.
    unfold Report.reported, Report.covered_by_base in *.
    rewrite Hflag. simpl. rewrite Hbase. reflexivity.
  - destruct (collect_all_count paths r) as [_ ->]. rewrite Hswitch.
    reflexivity.
Qed.

Lemma narrow_band_suppressed_witness :
  Report.DisableCVE45105 (Report.fresh true) = true
  /\ Report.Count (Report.collect_all (Report.fresh true) Report.mixed_tree)
     = 2%Z.
Proof.
  split; [reflexivity|].
  destruct (narrow_band_suppressed (Report.fresh true) Report.mixed_tree
              eq_refl) as (_ & _ & Hcount).
  rewrite Hcount. reflexivity.
Defined.

(** Without the switch the jar of the narrow band counts as well. *)
Example switch_off_counts_narrow_band :
  Report.Count (Report.collect_all (Report.fresh false) Report.mixed_tree)
  = 3%Z.
Proof. reflexivity. Qed.

(** ** The scanner on the two daemons *)

Example fleet_returns :
  fst <$> Docker.ScanImages Docker.Fleet.env true Docker.Fleet.start
  = Some (3%Z, None).
Proof. vm_compute. reflexivity. Qed.

Example fleet_error_writer :
  (Docker.stderr ∘ snd) <$>
    Docker.ScanImages Docker.Fleet.env true Docker.Fleet.start
  = Some [("No such image: broken:2" +:+ Docker.newline)].
Proof. vm_compute. reflexivity. Qed.

Example fleet_output :
  (Docker.stdout ∘ snd) <$>
    Docker.ScanImages Docker.Fleet.env true Docker.Fleet.start
  = Some ["finding"; "finding"; "finding";
          "filesScanned: 12 vulnerableFileCount: 3"].
Proof. vm_compute. reflexivity. Qed.

Example fleet_directories_removed :
  (Docker.fs ∘ snd) <$>
    Docker.ScanImages Docker.Fleet.env true Docker.Fleet.start
  = Some ∅.
Proof. vm_compute. reflexivity. Qed.

Example leak_survives_the_run :
  (Docker.fs ∘ snd) <$>
    Docker.ScanImages Docker.Leak.env true Docker.Leak.start
  = Some {[ Docker.Leak.imageTmpDir ]}.
Proof. vm_compute. reflexivity. Qed.

(** * Further properties of the detector *)

Section DetectorShape.

(** A string with a separator splits into two segments or more. *)
Lemma Split_length_dotted (s : string) :
  dotfree s = false -> (2 <= length (Split s))%nat.
Proof.
  induction s as [|c s IH]; simpl; [discriminate|].
  destruct (is_dot c); simpl.
  - intros _. pose proof (Split_length_pos s). lia.
  - intros Hs. specialize (IH Hs).
    destruct (Split s); simpl in *; lia.
Qed.

Lemma string_app_assoc (a b c : string) : (a +:+ b) +:+ c = a +:+ (b +:+ c).
Proof.
  induction a as [|x a IH]; [reflexivity|].
  change (String x ((a +:+ b) +:+ c) = String x (a +:+ b +:+ c)).
  by rewrite IH.
Qed.

(** Joining two lists of segments joins their joins. *)
Lemma Join_app (front back : list string) :
  front <> [] -> back <> [] ->
  Join (front ++ back) = Join front +:+ String dot (Join back).
Proof.
  induction front as [|e rest IH]; [congruence|].
  intros _ Hback. destruct rest as [|e' rest'].
  - simpl app. by rewrite Join_cons.
  - specialize (IH ltac:(discriminate) Hback).
    rewrite (Join_cons e (e' :: rest')) by discriminate.
    rewrite string_app_assoc.
    change (String dot (Join (e' :: rest')) +:+ String dot (Join back))
      with (String dot (Join (e' :: rest') +:+ String dot (Join back))).
    rewrite <- IH.
    apply (Join_cons e ((e' :: rest') ++ back)). discriminate.
Qed.

(** The two-segment keys of the table: [tar.gz] and [tar.bz2]. *)
Lemma two_segment_keys (x y : string) (format : FormatType) :
  dotfree x = true -> dotfree y = true ->
  extensions !! Join [x; y] = Some format ->
  x = "tar"
  /\ ((y = "gz" /\ format = TarGzArchive)
      \/ (y = "bz2" /\ format = TarBz2Archive)).
Proof.
  intros Hx Hy Hkey.
  apply extensions_lookup_Some in Hkey.
  assert (Hsplit : Split (Join [x; y]) = [x; y]).
  { apply Split_Join; [discriminate | repeat constructor; assumption]. }
  simpl in Hkey. simpl Join in Hsplit.
  repeat (destruct Hkey as [Hkey|Hkey];
          [injection Hkey as Hjoin <-; rewrite <- Hjoin in Hsplit;
           vm_compute in Hsplit; try discriminate;
           injection Hsplit as <- <-; auto|]).
  destruct Hkey.
Qed.

(** The split of a filename with an extension ends in the last segment of
    the base and the extension. *)
Lemma Split_with_extension (base ext : string) :
  dotfree ext = true ->
  exists front x,
    Split base = front ++ [x]
    /\ dotfree x = true
    /\ Split (with_extension base ext) = front ++ [x; ext].
Proof.
  intros Hext.
  destruct (exists_last (Split_nonempty base)) as (front & x & Hbase).
  exists front, x. split; [assumption|]. split.
  - pose proof (Split_segments_dotfree base) as Hfree.
    rewrite Hbase in Hfree. apply Forall_app in Hfree as [_ Hfree].
    by inversion Hfree.
  - unfold with_extension.
    rewrite Split_app_dot, (Split_dotfree ext Hext), Hbase, <- app_assoc.
    reflexivity.
Qed.

Lemma dot_suffix_one (base : string) (front : list string) (x : string) :
  Split base = front ++ [x] -> dot_suffix 1 base = x.
Proof.
  intros Hbase. unfold dot_suffix, last_segments.
  rewrite last_by_drop, Hbase, drop_last_one. reflexivity.
Qed.

End DetectorShape.

(** X2. A filename is detected, with the format [format], exactly when it
    ends in a dot and a key of the table that has this format, or is
    itself a key with a dot in it. *)
Theorem detected_iff_key_suffix (filename : string) (format : FormatType) :
  ParseArchiveFormatFromFile filename = (format, true)
  <-> (exists base ext : string,
         filename = with_extension base ext
         /\ extensions !! ext = Some format)
      \/ (dotfree filename = false /\ extensions !! filename = Some format).
Proof.
  split.
  - intros Hparse.
    destruct (decide (length (Split filename) < 2)%nat) as [Hshort|Hlong].
    { unfold ParseArchiveFormatFromFile in Hparse. cbv zeta in Hparse.
      rewrite bool_decide_eq_true_2 in Hparse by assumption. discriminate. }
    destruct (two_last (Split filename)) as (front & x & y & Hsplit); [lia|].
    rewrite (Parse_two_last _ _ _ _ Hsplit) in Hparse.
    pose proof (Join_Split filename) as Hname. rewrite Hsplit in Hname.
    destruct (extensions !! y) as [a|] eqn:Hy.
    + injection Hparse as ->. left.
      exists (Join (front ++ [x])), y. split; [|assumption].
      rewrite <- Hname.
      replace (front ++ [x; y]) with ((front ++ [x]) ++ [y])
        by (rewrite <- app_assoc; reflexivity).
      unfold with_extension. apply Join_app; [|discriminate].
      destruct front; discriminate.
    + destruct (extensions !! Join [x; y]) as [a|] eqn:Hxy; [|discriminate].
      injection Hparse as ->.
      destruct front as [|e front'].
      * right. split.
        -- destruct (dotfree filename) eqn:Hfree; [|reflexivity].
           apply Split_dotfree in Hfree. rewrite Hsplit in Hfree.
           discriminate.
        -- simpl app in Hname. rewrite <- Hname. assumption.
      * left. exists (Join (e :: front')), (Join [x; y]).
        split; [|assumption].
        rewrite <- Hname. unfold with_extension.
        apply Join_app; discriminate.
  - intros [(base & ext & -> & Hkey)|[Hdot Hkey]];
      apply extensions_lookup_Some in Hkey; simpl in Hkey;
      repeat (destruct Hkey as [Hkey|Hkey];
              [injection Hkey as <- <-;
               first [ discriminate Hdot
                     | vm_compute; reflexivity
                     | apply Parse_extension; vm_compute; reflexivity
                     | apply (Parse_compound_extension base "tar" "gz");
                       reflexivity
                     | apply (Parse_compound_extension base "tar" "bz2");
                       reflexivity ]|]);
      destruct Hkey.
Qed.

(** X3. What stands before the last two segments does not matter: a
    filename that has a dot in it is detected as it is detected with any
    base and a dot put before it. *)
Theorem leading_segments_ignored (base filename : string) :
  dotfree filename = false ->
  ParseArchiveFormatFromFile (with_extension base filename)
  = ParseArchiveFormatFromFile filename.
Proof.
  intros Hdot.
  destruct (two_last (Split filename)) as (front & x & y & Hsplit);
    [by apply Split_length_dotted|].
  rewrite (Parse_two_last filename front x y Hsplit).
  apply (Parse_two_last _ (Split base ++ front) x y).
  unfold with_extension. rewrite Split_app_dot, Hsplit, app_assoc.
  reflexivity.
Qed.

Lemma leading_segments_ignored_witness :
  with_extension "backup.2021" "app.tar.gz" = "backup.2021.app.tar.gz"
  /\ ParseArchiveFormatFromFile "backup.2021.app.tar.gz"
     = ParseArchiveFormatFromFile "app.tar.gz".
Proof.
  split; [reflexivity|].
  apply (leading_segments_ignored "backup.2021" "app.tar.gz"). reflexivity.
Defined.

(** X4. An extension that is no key of the table, and is neither [gz] nor
    [bz2], makes no archive, whatever the base: an extension put after the
    name of an archive hides it. *)
Theorem unknown_extension_unsupported (base ext : string) :
  dotfree ext = true -> extensions !! ext = None ->
  ext <> "gz" -> ext <> "bz2" ->
  ParseArchiveFormatFromFile (with_extension base ext)
  = (UnsupportedArchive, false).
Proof.
  intros Hext Hkey Hgz Hbz2.
  destruct (Split_with_extension base ext Hext)
    as (front & x & _ & Hx & Hsplit).
  rewrite (Parse_two_last _ front x ext Hsplit), Hkey.
  destruct (extensions !! Join [x; ext]) as [format|] eqn:Htwo; [|reflexivity].
  destruct (two_segment_keys x ext format Hx Hext Htwo)
    as [_ [[-> _]|[-> _]]]; congruence.
Qed.

Lemma unknown_extension_unsupported_witness :
  with_extension "app.jar" "bak" = "app.jar.bak"
  /\ ParseArchiveFormatFromFile "app.jar.bak" = (UnsupportedArchive, false).
Proof.
  split; [reflexivity|].
  apply (unknown_extension_unsupported "app.jar" "bak");
    try reflexivity; discriminate.
Defined.

(** X5. A file ending in [.gz] is an archive exactly when the segment
    before is [tar], and then a [TarGzArchive]; the same for [.bz2] and
    [TarBz2Archive]. *)
Theorem compressed_needs_tar (base : string) :
  ParseArchiveFormatFromFile (with_extension base "gz")
  = (if bool_decide (dot_suffix 1 base = "tar") then (TarGzArchive, true)
     else (UnsupportedArchive, false))
  /\ ParseArchiveFormatFromFile (with_extension base "bz2")
     = (if bool_decide (dot_suffix 1 base = "tar") then (TarBz2Archive, true)
        else (UnsupportedArchive, false)).
Proof.
  split.
  - destruct (Split_with_extension base "gz" eq_refl)
      as (front & x & Hbase & Hx & Hsplit).
    rewrite (Parse_two_last _ front x "gz" Hsplit).
    rewrite (dot_suffix_one base front x Hbase).
    replace (extensions !! "gz") with (@None FormatType)
      by (vm_compute; reflexivity).
    destruct (decide (x = "tar")) as [->|Hne].
    + rewrite bool_decide_eq_true_2 by reflexivity. vm_compute. reflexivity.
    + rewrite bool_decide_eq_false_2 by assumption.
      destruct (extensions !! Join [x; "gz"]) as [format|] eqn:Htwo;
        [|reflexivity].
      destruct (two_segment_keys x "gz" format Hx eq_refl Htwo) as [-> _].
      congruence.
  - destruct (Split_with_extension base "bz2" eq_refl)
      as (front & x & Hbase & Hx & Hsplit).
    rewrite (Parse_two_last _ front x "bz2" Hsplit).
    rewrite (dot_suffix_one base front x Hbase).
    replace (extensions !! "bz2") with (@None FormatType)
      by (vm_compute; reflexivity).
    destruct (decide (x = "tar")) as [->|Hne].
    + rewrite bool_decide_eq_true_2 by reflexivity. vm_compute. reflexivity.
    + rewrite bool_decide_eq_false_2 by assumption.
      destruct (extensions !! Join [x; "bz2"]) as [format|] eqn:Htwo;
        [|reflexivity].
      destruct (two_segment_keys x "bz2" format Hx eq_refl Htwo) as [-> _].
      congruence.
Qed.

(** * Further properties of the docker scanner *)

Section ScannerFurther.

Import Docker.
Context `{Packages}.
Variable env : Env.
Variable config : Config.

Ltac scan_paths :=
  unfold scanImage, export_and_crawl, deferred, temp_pattern;
  repeat match goal with
    | |- context [match ?x with _ => _ end] =>
        lazymatch x with
        | context [match _ with _ => _ end] => fail
        | _ => destruct x eqn:?
        end
    end;
  simpl.

(** The loop does not see the images without a tag. *)
Lemma scan_loop_tagged_images (imageList : list ImageSummary) :
  forall (stats : Stats) (w : World),
    scan_loop env imageList stats w
    = scan_loop env (tagged_images imageList) stats w.
Proof.
  induction imageList as [|image rest IH]; intros stats w; [reflexivity|].
  destruct (decide (RepoTags image = [])) as [Htags|Htagged].
  - rewrite (scan_loop_untagged env image rest stats w Htags).
    rewrite (tagged_images_untagged image rest Htags). apply IH.
  - rewrite (tagged_images_tagged image rest Htagged).
    rewrite !(scan_loop_tagged env image _ stats w Htagged).
    destruct (scanImage env image _) as [[[imageStats [e|]] w1]|];
      [apply IH | apply IH | reflexivity].
Qed.

Lemma scan_loop_returns (imageList : list ImageSummary) (stats : Stats)
    (w : World) :
  is_Some (scan_loop env imageList stats w).
Proof.
  destruct (scan_loop_runs env w imageList stats w)
    as (w' & written & reported & Hloop & _).
  rewrite Hloop. eauto.
Qed.

(** X6. [scanImage] panics, on [image.RepoTags[0]], exactly for an image
    without a tag, and [ScanImages] never does: it returns for every
    environment and every list of images. *)
Theorem ScanImages_never_panics :
  (forall (image : ImageSummary) (w : World),
     scanImage env image w = None <-> RepoTags image = [])
  /\ (forall w : World, is_Some (ScanImages env config w)).
Proof.
  split.
  - intros image w. scan_paths; split; congruence.
  - intros w. unfold ScanImages.
    destruct (ImageList env) as [imageList [e|]]; [eauto|].
    destruct (scan_loop_returns imageList Stats_zero w) as [[stats w'] ->].
    destruct (OutputSummary config); [|eauto].
    destruct (WriteSummary config stats _) as [text [e|]]; eauto.
Qed.

(** X7. An error of [ScanImages] comes with the count 0 and from one of two
    places: the listing of the images, wrapped, with nothing scanned or
    written; or the writing of the summary, when summaries are on. *)
Theorem ScanImages_error_origin (w w' : World) (n : Z) (e : error) :
  ScanImages env config w = Some ((n, Some e), w') ->
  n = 0%Z
  /\ ((exists cause,
         snd (ImageList env) = Some cause
         /\ e = Wrap cause "could not list docker images"
         /\ w' = w)
      \/ (snd (ImageList env) = None
          /\ OutputSummary config = true
          /\ exists stats count,
               snd (WriteSummary config stats count) = Some e)).
Proof.
  unfold ScanImages.
  destruct (ImageList env) as [imageList [cause|]]; simpl.
  - intros [= <- <- <-]. split; [reflexivity|]. left. eauto.
  - destruct (scan_loop env imageList Stats_zero w) as [[stats w1]|];
      [|discriminate].
    destruct (OutputSummary config) eqn:Hsummary; [|discriminate].
    destruct (WriteSummary config stats (Count (reporter w1)))
      as [text [failure|]] eqn:Hwrite; [|discriminate].
    intros [= <- <- <-]. split; [reflexivity|]. right.
    repeat split. exists stats, (Count (reporter w1)). by rewrite Hwrite.
Qed.

End ScannerFurther.

(** X8. The images without a tag do not count: [ScanImages] does on a list
    of images what it does on those of them that have a tag. *)
Theorem ScanImages_ignores_untagged `{Docker.Packages} (env : Docker.Env)
    (config : Docker.Config) (imageList : list Docker.ImageSummary)
    (w : Docker.World) :
  Docker.ScanImages (Docker.with_images (imageList, None) env) config w
  = Docker.ScanImages
      (Docker.with_images (Docker.tagged_images imageList, None) env) config w.
Proof.
  unfold Docker.ScanImages. cbn [Docker.ImageList Docker.with_images].
  change (Docker.scan_loop (Docker.with_images (imageList, None) env))
    with (Docker.scan_loop env).
  change (Docker.scan_loop
            (Docker.with_images (Docker.tagged_images imageList, None) env))
    with (Docker.scan_loop env).
  rewrite (scan_loop_tagged_images env imageList). reflexivity.
Qed.

Section ScannerCleanup.

Import Docker.
Context `{Packages}.
Variable env : Env.
Variable config : Config.

Ltac scan_paths :=
  unfold scanImage, export_and_crawl, deferred, temp_pattern;
  repeat match goal with
    | |- context [match ?x with _ => _ end] =>
        lazymatch x with
        | context [match _ with _ => _ end] => fail
        | _ => destruct x eqn:?
        end
    end;
  simpl.

Lemma prefix_app (a b : string) : String.prefix a (a +:+ b) = true.
Proof.
  induction a as [|c a IH]; simpl; [by destruct b|].
  destruct (Ascii.ascii_dec c c); [exact IH | congruence].
Qed.

(** A file of the directory lies below it. *)
Lemma below_Join (dir name : string) : below dir (filepath_Join dir name) = true.
Proof.
  unfold below, filepath_Join. rewrite <- string_app_assoc. apply prefix_app.
Qed.

Lemma append_longer (s t : string) : t <> "" -> s +:+ t <> s.
Proof.
  intros Ht. induction s as [|c s IH]; simpl; [assumption|].
  intros [= Heq]. by apply IH.
Qed.

Lemma Join_not_dir (dir name : string) : filepath_Join dir name <> dir.
Proof. unfold filepath_Join. apply append_longer. discriminate. Qed.

(** X9. Scanning a list of images is scanning a first part of it and then
    the rest, with the [Stats] and the world the first part leaves. *)
Theorem scan_loop_app (first rest : list ImageSummary) :
  forall (stats : Stats) (w : World),
    scan_loop env (first ++ rest) stats w
    = match scan_loop env first stats w with
      | Some (stats', w') => scan_loop env rest stats' w'
      | None => None
      end.
Proof.
  induction first as [|image first IH]; intros stats w; [reflexivity|].
  simpl. destruct (RepoTags image); [apply IH|].
  destruct (scanImage env image _) as [[[imageStats [e|]] w1]|];
    [apply IH | apply IH | reflexivity].
Qed.

(** X10. A scan that cannot parse the reference, get the image from the
    daemon or make its temporary directory returns an error with the zero
    [Stats] and has changed nothing: no path, no writer, not the
    reporter. *)
Theorem scanImage_acquisition_failure (image : ImageSummary) (w : World)
    (tag : string) (tags : list string) :
  RepoTags image = tag :: tags ->
  is_Some (snd (ParseReference env tag))
  \/ is_Some (snd (daemon_Image env (fst (ParseReference env tag))))
  \/ is_Some (snd (MkdirTemp env (temp_pattern image))) ->
  exists e : error, scanImage env image w = Some ((Stats_zero, Some e), w).
Proof.
  intros Htags Hfails. unfold scanImage, temp_pattern in *. rewrite Htags.
  destruct (ParseReference env tag) as [ref [e1|]]; simpl in *; [eauto|].
  destruct (daemon_Image env ref) as [img [e2|]]; simpl in *; [eauto|].
  destruct (MkdirTemp env _) as [dir [e3|]]; simpl in *; [eauto|].
  destruct Hfails as [[? ?]|[[? ?]|[? ?]]]; discriminate.
Qed.

(** X11. A failure of the cleanup is never returned: the pair [scanImage]
    returns is the same whatever [outFile.Close] and [os.RemoveAll] do. *)
Theorem cleanup_failure_not_returned (close remove : string -> option error)
    (image : ImageSummary) (w : World) :
  result_of (with_cleanup close remove env) w image = result_of env w image.
Proof.
  unfold result_of, scanImage, export_and_crawl, deferred, with_cleanup.
  simpl.
  repeat match goal with
    | |- context [match ?x with _ => _ end] =>
        lazymatch x with
        | context [match _ with _ => _ end] => fail
        | _ => destruct x eqn:?
        end
    end; simpl; congruence.
Qed.

(** *** Names and the paths they stand for *)

Lemma resolve_abs (d p : string) : is_abs p = true -> resolve d p = p.
Proof. intros Habs. unfold resolve. by rewrite Habs. Qed.

Lemma resolve_rel (d p : string) :
  is_abs p = false -> resolve d p = filepath_Join d p.
Proof. intros Hrel. unfold resolve. by rewrite Hrel. Qed.

Lemma prefix_split (a : string) :
  forall b, String.prefix a b = true -> exists c, b = a +:+ c.
Proof.
  induction a as [|x a IH]; intros b; simpl; [by exists b|].
  destruct b as [|y b]; simpl; [discriminate|].
  destruct (Ascii.ascii_dec x y) as [->|]; [|discriminate].
  intros Hpre. destruct (IH b Hpre) as [c ->]. by exists c.
Qed.

Lemma below_split (dir p : string) :
  below dir p = true -> exists c, p = filepath_Join dir c.
Proof.
  unfold below, filepath_Join. intros Hpre.
  destruct (prefix_split _ _ Hpre) as [c ->]. exists c.
  apply string_app_assoc.
Qed.

(** What lies below a file of a directory lies below the directory. *)
Lemma below_nested (dir name p : string) :
  below (filepath_Join dir name) p = true -> below dir p = true.
Proof.
  intros Hbelow. destruct (below_split _ _ Hbelow) as [c ->].
  unfold filepath_Join. rewrite string_app_assoc.
  apply (below_Join dir (name +:+ "/" +:+ c)).
Qed.


(** A path that is neither a directory nor below it outlives the removal of
    the directory and of any file of it. *)
Lemma outlives_removal (dir target p : string) (paths : gset string) :
  p ∈ paths -> p <> dir -> below dir p = false ->
  target = dir \/ (exists name, target = filepath_Join dir name) ->
  p ∈ remove_all target paths.
Proof.
  intros Hin Hne Hnot Htarget. unfold remove_all.
  apply elem_of_filter. destruct Htarget as [->|[name ->]].
  - split; [assumption | set_solver].
  - split.
    + destruct (below (filepath_Join dir name) p) eqn:Hbelow; [|reflexivity].
      apply below_nested in Hbelow. congruence.
    + apply elem_of_difference. split; [assumption|].
      intros Heq%elem_of_singleton. subst p.
      rewrite below_Join in Hnot. discriminate.
Qed.

(** The name of the directory, taken from the directory itself, stands for
    the directory when it is absolute and for a path below it when not. *)
Lemma resolve_from_inside (d dir : string) :
  resolve (resolve d dir) dir = resolve d dir
  \/ exists name, resolve (resolve d dir) dir
                  = filepath_Join (resolve d dir) name.
Proof.
  destruct (is_abs dir) eqn:Habs.
  - left. by rewrite !(resolve_abs _ dir Habs).
  - right. exists dir. by rewrite (resolve_rel (resolve d dir) dir Habs).
Qed.

(** The name still stands for the directory when it is absolute or the
    working directory has not moved. *)
Lemma resolve_in_place (d dir : string) :
  is_abs dir = true \/ resolve d dir = d ->
  resolve (resolve d dir) dir = resolve d dir.
Proof.
  intros [Habs|Hsame].
  - by rewrite !(resolve_abs _ dir Habs).
  - by rewrite !Hsame.
Qed.

Ltac scan_outcomes :=
  repeat match goal with
    | |- context [match ?x with _ => _ end] =>
        lazymatch x with
        | context [match _ with _ => _ end] => fail
        | _ => destruct x eqn:?
        end
    end.

(** X12. When [os.RemoveAll] fails the scan says so on the error writer,
    as the last thing it writes, and the directory stays. *)
Theorem removal_failure_logged (image : ImageSummary) (w w' : World)
    tag tags ref img dir e ret :
  RepoTags image = tag :: tags ->
  ParseReference env tag = (ref, None) ->
  daemon_Image env ref = (img, None) ->
  MkdirTemp env (temp_pattern image) = (dir, None) ->
  os_Create env (filepath_Join dir "image.tar") = None ->
  os_RemoveAll env dir = Some e ->
  scanImage env image w = Some (ret, w') ->
  (resolve (cwd w) dir ∈ fs w')
  /\ last (stderr w') = Some (remove_failed dir).
Proof.
  intros Htags Href Himg Hdir Hcreate Hremove. unfold scanImage, temp_pattern in *.
  rewrite Htags, Href, Himg, Hdir, Hcreate.
  pose proof (Join_not_dir (resolve (cwd w) dir) "image.tar") as Hne.
  unfold export_and_crawl, deferred, image_tar. rewrite Hremove.
  scan_outcomes; simpl; intros [= <- <-]; simpl;
    (split; [set_solver | apply last_snoc]).
Qed.

(** X14. A scan that gets to open its file and whose [os.RemoveAll]
    succeeds leaves the paths as it found them, when the directory is a new
    one, the image unpacks below it, and the name of the directory is
    absolute or the working directory has not moved: no trace of the scan
    is left. *)
Theorem scanImage_leaves_no_trace (image : ImageSummary) (w w' : World)
    tag tags ref img dir ret :
  RepoTags image = tag :: tags ->
  ParseReference env tag = (ref, None) ->
  daemon_Image env ref = (img, None) ->
  MkdirTemp env (temp_pattern image) = (dir, None) ->
  os_Create env (filepath_Join dir "image.tar") = None ->
  os_RemoveAll env dir = None ->
  (forall p, p ∈ fs w ->
     p <> resolve (cwd w) dir /\ below (resolve (cwd w) dir) p = false) ->
  (forall p,
     p ∈ fst (archiver_Unarchive env (filepath_Join dir "image.tar") dir) ->
     below (resolve (cwd w) dir) p = true) ->
  scanImage env image w = Some (ret, w') ->
  is_abs dir = true \/ cwd w' = cwd w ->
  fs w' = fs w.
Proof.
  intros Htags Href Himg Hdir Hcreate Hremove Hfresh Hbelow.
  unfold scanImage, temp_pattern in *.
  rewrite Htags, Href, Himg, Hdir, Hcreate.
  pose proof (below_Join (resolve (cwd w) dir) "image.tar") as Hfile.
  unfold export_and_crawl, deferred, image_tar in *. rewrite Hremove.
  destruct (archiver_Unarchive env _ dir) as [extracted failure] eqn:Hunpack.
  simpl in Hbelow.
  scan_outcomes; simpl; intros [= <- <-] Hplace; simpl in *;
    try rewrite (resolve_in_place _ _ Hplace);
    apply set_eq; intros p; unfold remove_all;
    rewrite elem_of_filter;
    (split;
     [ intros [Hp Hin];
       repeat (rewrite ?elem_of_difference, ?elem_of_union,
                 ?elem_of_singleton, ?elem_of_list_to_set in Hin);
       destruct_and?; destruct_or?; subst; try done; try congruence;
       match goal with
       | Hx : p ∈ extracted |- _ => rewrite (Hbelow p Hx) in Hp; discriminate
       end
     | intros Hin; destruct (Hfresh p Hin) as [Hnd Hnb];
       split; [assumption|];
       repeat (rewrite ?elem_of_difference, ?elem_of_union,
                 ?elem_of_singleton, ?elem_of_list_to_set);
       repeat split; auto; intros ->; congruence ]).
Qed.

End ScannerCleanup.

Section ScannerPaths.

Import Docker.
Context `{Packages}.
Variable env : Env.
Variable config : Config.

Ltac scan_outcomes :=
  repeat match goal with
    | |- context [match ?x with _ => _ end] =>
        lazymatch x with
        | context [match _ with _ => _ end] => fail
        | _ => destruct x eqn:?
        end
    end.

(** X13. Once [outFile] is open, every return of [scanImage], with an
    error or without, runs [os.RemoveAll]; when that succeeds the directory
    is gone, provided its name is absolute or the working directory has not
    moved. *)
Theorem scanImage_removes_directory (image : ImageSummary) (w w' : World)
    tag tags ref img dir ret :
  RepoTags image = tag :: tags ->
  ParseReference env tag = (ref, None) ->
  daemon_Image env ref = (img, None) ->
  MkdirTemp env (temp_pattern image) = (dir, None) ->
  os_Create env (filepath_Join dir "image.tar") = None ->
  os_RemoveAll env dir = None ->
  scanImage env image w = Some (ret, w') ->
  is_abs dir = true \/ cwd w' = cwd w ->
  resolve (cwd w) dir ∉ fs w'.
Proof.
  intros Htags Href Himg Hdir Hcreate Hremove.
  unfold scanImage, temp_pattern in *.
  rewrite Htags, Href, Himg, Hdir, Hcreate.
  unfold export_and_crawl, deferred. rewrite Hremove.
  scan_outcomes; simpl; intros [= <- <-] Hplace; simpl in *;
    try rewrite (resolve_in_place _ _ Hplace);
    apply remove_all_gone.
Qed.

(** X15. A scan removes nothing but its own: a path that is neither the
    temporary directory nor below it is still there when [scanImage]
    returns, however the scan went. *)
Theorem scanImage_keeps_other_paths (image : ImageSummary) (w w' : World)
    ret (p : string) :
  scanImage env image w = Some (ret, w') ->
  p ∈ fs w ->
  p <> resolve (cwd w) (fst (MkdirTemp env (temp_pattern image))) ->
  below (resolve (cwd w) (fst (MkdirTemp env (temp_pattern image)))) p = false ->
  p ∈ fs w'.
Proof.
  unfold scanImage, export_and_crawl, deferred, temp_pattern, image_tar.
  scan_outcomes; simpl; intros [= <- <-] Hp Hne Hb; simpl; try assumption;
    match goal with
    | Hb : below ?d p = false |- _ =>
        assert (p <> filepath_Join d "image.tar")
          by (intros ->; rewrite below_Join in Hb; discriminate)
    end;
    lazymatch goal with
    | Hb : below ?D p = false |- _ ∈ remove_all _ _ =>
        apply (outlives_removal D);
        [ set_solver | assumption | assumption
        | first [ left; reflexivity | apply resolve_from_inside ] ]
    | |- _ => set_solver
    end.
Qed.


(** X17. With no image that has a tag, [ScanImages] scans nothing: it
    returns what the reporter counts already, writes the summary with the
    zero [Stats] when summaries are on, and leaves the paths, the error
    writer and the reporter alone. *)
Theorem ScanImages_without_tagged_images (imageList : list ImageSummary)
    (w : World) :
  ImageList env = (imageList, None) ->
  tagged_images imageList = [] ->
  exists w' : World,
    ScanImages env config w
    = Some (after_loop config Stats_zero (Count (reporter w)), w')
    /\ fs w' = fs w /\ cwd w' = cwd w /\ stderr w' = stderr w
    /\ reporter w' = reporter w
    /\ stdout w'
       = stdout w ++ summary_output config Stats_zero (Count (reporter w)).
Proof.
  intros Hlist Hnone. unfold ScanImages, after_loop, summary_output.
  rewrite Hlist, (scan_loop_tagged_images env imageList), Hnone. simpl.
  destruct (OutputSummary config).
  - destruct (WriteSummary config Stats_zero (Count (reporter w)))
      as [text [e|]]; eexists; (split; [reflexivity|]); simpl;
      repeat split.
  - exists w. rewrite app_nil_r. repeat split.
Qed.

(** X18. When [outFile.Close] fails the scan writes that the temporary
    directory could not be removed, although [os.RemoveAll], which has
    succeeded on an absolute name or from a working directory that has
    not moved, has removed it. *)
Theorem close_failure_logged_as_removal (image : ImageSummary) (w w' : World)
    tag tags ref img dir e ret :
  RepoTags image = tag :: tags ->
  ParseReference env tag = (ref, None) ->
  daemon_Image env ref = (img, None) ->
  MkdirTemp env (temp_pattern image) = (dir, None) ->
  os_Create env (filepath_Join dir "image.tar") = None ->
  File_Close env (filepath_Join dir "image.tar") = Some e ->
  os_RemoveAll env dir = None ->
  scanImage env image w = Some (ret, w') ->
  is_abs dir = true \/ cwd w' = cwd w ->
  (resolve (cwd w) dir ∉ fs w')
  /\ last (stderr w') = Some (remove_failed dir).
Proof.
  intros Htags Href Himg Hdir Hcreate Hclose Hremove.
  unfold scanImage, temp_pattern in *.
  rewrite Htags, Href, Himg, Hdir, Hcreate.
  unfold export_and_crawl, deferred. rewrite Hclose, Hremove.
  scan_outcomes; simpl; intros [= <- <-] Hplace; simpl in *;
    try rewrite (resolve_in_place _ _ Hplace);
    (split; [apply remove_all_gone | apply last_snoc]).
Qed.

End ScannerPaths.

(** ** The further properties on the daemons *)

Lemma ScanImages_error_origin_witness :
  Docker.ScanImages Trial.down true Docker.Fleet.start
  = Some ((0%Z,
           Some (Docker.Wrap Trial.daemon_down "could not list docker images")),
          Docker.Fleet.start)
  /\ Docker.Error
       (Docker.Wrap Trial.daemon_down "could not list docker images")
     = "could not list docker images: Cannot connect to the Docker daemon".
Proof.
  pose proof (ScanImages_error_origin (H := Docker.counters) Trial.down true
                Docker.Fleet.start Docker.Fleet.start 0%Z
                (Docker.Wrap Trial.daemon_down "could not list docker images")
                eq_refl) as [_ Horigin].
  split; reflexivity.
Defined.

Lemma scanImage_acquisition_failure_witness :
  exists e : Docker.error,
    Docker.scanImage Docker.Fleet.env Trial.broken Trial.home
    = Some ((0%Z, Some e), Trial.home).
Proof.
  apply (scanImage_acquisition_failure (H := Docker.counters) Docker.Fleet.env
           Trial.broken Trial.home "broken:2" []); [reflexivity|].
  right. left. simpl. eauto.
Defined.

Lemma removal_failure_logged_witness :
  exists ret (w' : Docker.World),
    Docker.scanImage Trial.stuck Trial.web Trial.home = Some (ret, w')
    /\ (Trial.web_dir ∈ Docker.fs w')
    /\ last (Docker.stderr w') = Some (Docker.remove_failed Trial.web_dir).
Proof.
  destruct (Docker.scanImage Trial.stuck Trial.web Trial.home)
    as [[ret w']|] eqn:Hscan; [|vm_compute in Hscan; discriminate].
  exists ret, w'. split; [reflexivity|].
  apply (removal_failure_logged (H := Docker.counters) Trial.stuck Trial.web
           Trial.home w' "web:1" ["web:latest"] "web:1" "web:1" Trial.web_dir
           Trial.busy ret); try reflexivity. exact Hscan.
Defined.

Lemma scanImage_removes_directory_witness :
  exists ret (w' : Docker.World),
    Docker.scanImage Docker.Fleet.env Trial.web Trial.home = Some (ret, w')
    /\ Docker.is_abs Trial.web_dir = true
    /\ Trial.web_dir ∉ Docker.fs w'.
Proof.
  destruct (Docker.scanImage Docker.Fleet.env Trial.web Trial.home)
    as [[ret w']|] eqn:Hscan; [|vm_compute in Hscan; discriminate].
  exists ret, w'. split; [reflexivity|]. split; [reflexivity|].
  apply (scanImage_removes_directory (H := Docker.counters) Docker.Fleet.env
           Trial.web Trial.home w' "web:1" ["web:latest"] "web:1" "web:1"
           Trial.web_dir ret); try reflexivity; [exact Hscan|].
  left. reflexivity.
Defined.

Lemma scanImage_leaves_no_trace_witness :
  exists ret (w' : Docker.World),
    Docker.scanImage Docker.Fleet.env Trial.web Trial.home = Some (ret, w')
    /\ Docker.is_abs Trial.web_dir = true
    /\ Docker.fs w' = {[ "/etc/passwd" ]}.
Proof.
  destruct (Docker.scanImage Docker.Fleet.env Trial.web Trial.home)
    as [[ret w']|] eqn:Hscan; [|vm_compute in Hscan; discriminate].
  exists ret, w'. split; [reflexivity|]. split; [reflexivity|].
  apply (scanImage_leaves_no_trace (H := Docker.counters) Docker.Fleet.env
           Trial.web Trial.home w' "web:1" ["web:latest"] "web:1" "web:1"
           Trial.web_dir ret); try reflexivity; try exact Hscan.
  - intros p Hp. unfold Trial.home in Hp. simpl in Hp.
    apply elem_of_singleton in Hp as ->.
    split; [discriminate | reflexivity].
  - intros p Hp. cbn in Hp.
    apply elem_of_cons in Hp as [->|Hp]; [reflexivity|].
    apply elem_of_cons in Hp as [->|Hp]; [reflexivity|].
    by apply elem_of_nil in Hp.
  - left. reflexivity.
Defined.

Lemma scanImage_keeps_other_paths_witness :
  exists ret (w' : Docker.World),
    Docker.scanImage Trial.stuck Trial.web Trial.home = Some (ret, w')
    /\ "/etc/passwd" ∈ Docker.fs w'.
Proof.
  destruct (Docker.scanImage Trial.stuck Trial.web Trial.home)
    as [[ret w']|] eqn:Hscan; [|vm_compute in Hscan; discriminate].
  exists ret, w'. split; [reflexivity|].
  apply (scanImage_keeps_other_paths (H := Docker.counters) Trial.stuck
           Trial.web Trial.home w' ret "/etc/passwd" Hscan);
    [unfold Trial.home; simpl; by apply elem_of_singleton
    | discriminate | reflexivity].
Defined.


Lemma ScanImages_without_tagged_images_witness :
  exists w' : Docker.World,
    Docker.ScanImages Trial.dangling true Trial.home = Some ((0%Z, None), w')
    /\ Docker.fs w' = {[ "/etc/passwd" ]}
    /\ Docker.stdout w' = ["filesScanned: 0 vulnerableFileCount: 0"].
Proof.
  destruct (ScanImages_without_tagged_images (H := Docker.counters)
              Trial.dangling true _ Trial.home eq_refl eq_refl)
    as (w' & Hrun & Hfs & _ & _ & _ & Hout).
  exists w'. repeat split; assumption.
Defined.

Lemma close_failure_logged_as_removal_witness :
  exists ret (w' : Docker.World),
    Docker.scanImage Trial.unsynced Trial.web Trial.home = Some (ret, w')
    /\ (Trial.web_dir ∉ Docker.fs w')
    /\ last (Docker.stderr w') = Some (Docker.remove_failed Trial.web_dir).
Proof.
  destruct (Docker.scanImage Trial.unsynced Trial.web Trial.home)
    as [[ret w']|] eqn:Hscan; [|vm_compute in Hscan; discriminate].
  exists ret, w'. split; [reflexivity|].
  apply (close_failure_logged_as_removal (H := Docker.counters) Trial.unsynced
           Trial.web Trial.home w' "web:1" ["web:latest"] "web:1" "web:1"
           Trial.web_dir Trial.io_error ret); try reflexivity; [exact Hscan|].
  left. reflexivity.
Defined.

Lemma scanImage_collects_in_crawl_witness :
  exists ret (w' : Docker.World),
    Docker.scanImage Docker.Fleet.env Trial.web Trial.home = Some (ret, w')
    /\ (Docker.reporter w' = 0%Z
        \/ exists dir,
             ret = (Docker.run_stats (Docker.Crawl Docker.Fleet.env dir),
                    Docker.run_err (Docker.Crawl Docker.Fleet.env dir))
             /\ Docker.reporter w'
                = Docker.run_collect (Docker.Crawl Docker.Fleet.env dir) 0%Z).
Proof.
  destruct (Docker.scanImage Docker.Fleet.env Trial.web Trial.home)
    as [[ret w']|] eqn:Hscan; [|vm_compute in Hscan; discriminate].
  exists ret, w'. split; [reflexivity|].
  apply (scanImage_collects_in_crawl (H := Docker.counters) Docker.Fleet.env
           Trial.web Trial.home w' ret Hscan).
Defined.

(** ** The count after a crawl that was cut short *)


Example interrupted_error_writer :
  (Docker.stderr ∘ snd) <$>
    Docker.ScanImages Trial.interrupted true Docker.Fleet.start
  = Some [("No such image: broken:2" +:+ Docker.newline);
          ("context canceled" +:+ Docker.newline)].
Proof. vm_compute. reflexivity. Qed.

Example interrupted_summary :
  (Docker.stdout ∘ snd) <$>
    Docker.ScanImages Trial.interrupted true Docker.Fleet.start
  = Some ["finding"; "finding"; "finding";
          "filesScanned: 7 vulnerableFileCount: 3"].
Proof. vm_compute. reflexivity. Qed.

(** ** A relative temporary directory *)

Example relative_directory_stays :
  (Docker.fs ∘ snd) <$>
    Docker.scanImage Trial.relative Trial.web Trial.work
  = Some {[ "/work/tmp"; "/work/tmp/log4j-sniffer-sha256:aa" ]}.
Proof. vm_compute. reflexivity. Qed.

(** The name [outFile] is opened under stands for the file [image.tar] of
    the directory, wherever the name of the directory is taken from. *)
Lemma image_tar_resolves `{Docker.Packages} (w : Docker.World) (dir : string) :
  dir <> "" ->
  Docker.resolve (Docker.cwd w) (Docker.filepath_Join dir "image.tar")
  = Docker.image_tar w dir.
Proof.
  intros Hdir. destruct dir as [|c dir]; [congruence|].
  unfold Docker.image_tar, Docker.resolve.
  change (Docker.is_abs (Docker.filepath_Join (String c dir) "image.tar"))
    with (Docker.is_abs (String c dir)).
  destruct (Docker.is_abs (String c dir)); [reflexivity|].
  unfold Docker.filepath_Join.
  rewrite !string_app_assoc. reflexivity.
Qed.
